(** * Tailor shop server actions: order and payment status lifecycle

    A shallow embedding of the server actions of
    [src/app/dashboard/layout.tsx] (the "central place for all server
    actions"): form validation with zod schemas, and the pass-through
    calls to the hosted relational store and identity provider.

    The store and the identity provider are external collaborators.  Their
    state (the two tables, the session) is part of [World]; what they
    answer to a request that this code cannot decide (a failure, a
    generated id, the clock) is read from an [Env], one per request. *)

From Stdlib Require Import String Ascii List Bool Arith Lia.
From stdpp Require Import base option list strings pretty gmap sorting.

Local Open Scope string_scope.

(** ** Data model *)

(** The measurements payload is an opaque key-value structure. *)
Definition Measurements : Type := list (string * string).

(** A row of table [measurement_sets]; the columns are the ones selected by
    [getCustomerById], plus the foreign key. *)
Module MeasurementSetRow.
Record t := mk {
  id : string;
  customer_id : string;
  date : string;
  measurements : Measurements;
  job_number : option string;
  request_date : option string;
  payment_status : string;
  order_status : string;
  completion_date : option string;
  handover_date : option string
}.
End MeasurementSetRow.

(** The object handed to [.update(...)] on [measurement_sets]: a partial
    row.  A key that is absent from the JavaScript object is [None]. *)
Module UpdateData.
Record t := mk {
  payment_status : option string;
  order_status : option string;
  completion_date : option string;
  handover_date : option string
}.
End UpdateData.

(** The object handed to [.insert(...)] on [measurement_sets]. *)
Module InsertData.
Record t := mk {
  customer_id : string;
  date : string;
  measurements : Measurements;
  job_number : option string;
  request_date : option string;
  payment_status : string;
  order_status : string
}.
End InsertData.

(** Modelled from the spec: the declaration of [MeasurementSet] in
    [@/lib/types] is not among the sources.  The record is
    [Omit<MeasurementSet, 'id' | 'date'>], the argument of
    [addMeasurementSet], with the attributes the data model lists for a
    measurement set, named as [getCustomerById] builds them.  [OrderStatus]
    and [PaymentStatus], declared in the same file, are the strings they are
    at run time. *)
Module MeasurementSet.
Record t := mk {
  measurements : Measurements;
  jobNumber : option string;
  requestDate : option string;
  paymentStatus : string;
  orderStatus : string;
  completionDate : option string;
  handoverDate : option string
}.
End MeasurementSet.

(** A row of table [customers]. *)
Module CustomerRow.
Record t := mk {
  id : string;
  name : string;
  nic : string;
  contact : string;
  order_history : option string;
  preferences : option string;
  created_at : string;
  user_id : string
}.
End CustomerRow.

(** One element of the array returned by [getCustomers]: the customer's
    columns, the joined [measurement_sets(job_number, order_status)] and the
    alias [measurementSets] added by the final [map]. *)
Module Customer.
Record t := mk {
  row : CustomerRow.t;
  measurement_sets : list (option string * string);
  measurementSets : list (option string * string)
}.
End Customer.

(** Requests sent to the identity provider and to the store. *)
Inductive Call :=
| AuthGetUser
| AuthSignInWithPassword (email password : string)
| AuthSignUp (email password emailRedirectTo : string)
| CustomersInsert (payload : gmap string string)
| CustomersUpdate (payload : gmap string string) (id : string)
| CustomersSelect
| MeasurementSetsInsert (payload : InsertData.t)
| MeasurementSetsUpdate (payload : UpdateData.t) (id : string).

(** The state outside the handler: both tables, the signed-in identity, the
    invalidated cache paths, the error console, and the requests sent so
    far (oldest first). *)
Record World := mkWorld {
  customers : list CustomerRow.t;
  measurement_sets : list MeasurementSetRow.t;
  session : option string;
  revalidated : list string;
  console : list string;
  calls : list Call
}.

(** What the collaborators answer during one request. *)
Record Env := mkEnv {
  now : string;                     (* [new Date().toISOString()] *)
  origin : option string;           (* [headers().get('origin')] *)
  auth_error : option string;       (* error of [signInWithPassword] / [signUp] *)
  auth_identity : string;           (* identity the credentials resolve to *)
  relogin_error : option string;    (* error of the sign-in that follows [signUp] *)
  store_error : option string;      (* error of the store request *)
  store_new_id : string;            (* id the store gives an inserted row *)
  store_created_at : string         (* [created_at] default of the store *)
}.

(** What a server action hands back to its caller. *)
Inductive ActionResult :=
| Success                                                        (* [{ success: true }] *)
| Failure (error : string) (fields : option (gmap string (list string)))
| Redirect (path : string).                                     (* [redirect(path)] *)

(** ** The handler monad: state passing over [World]

    [createClient()] builds the client handle of a request and sends
    nothing; it has no counterpart below. *)

Definition Action (A : Type) : Type := World → A * World.

#[global] Instance action_ret : MRet Action := λ A a w, (a, w).
#[global] Instance action_bind : MBind Action :=
  λ A B f m w, let '(a, w') := m w in f a w'.

Definition record_call (c : Call) : Action unit := λ w,
  (tt, mkWorld (customers w) (measurement_sets w) (session w)
               (revalidated w) (console w) (calls w ++ [c])).

Definition set_measurement_sets (rows : list MeasurementSetRow.t) : Action unit := λ w,
  (tt, mkWorld (customers w) rows (session w) (revalidated w) (console w) (calls w)).

Definition set_customers (rows : list CustomerRow.t) : Action unit := λ w,
  (tt, mkWorld rows (measurement_sets w) (session w) (revalidated w) (console w) (calls w)).

Definition set_session (s : option string) : Action unit := λ w,
  (tt, mkWorld (customers w) (measurement_sets w) s (revalidated w) (console w) (calls w)).

Definition revalidatePath (path : string) : Action unit := λ w,
  (tt, mkWorld (customers w) (measurement_sets w) (session w)
               (revalidated w ++ [path]) (console w) (calls w)).

Definition console_error (msg : string) : Action unit := λ w,
  (tt, mkWorld (customers w) (measurement_sets w) (session w)
               (revalidated w) (console w ++ [msg]) (calls w)).

Definition get_world : Action World := λ w, (w, w).

(** ** The relational store

    The store is reached through the client of [@/lib/supabase/server],
    which is not among the sources.  Its primitives are insert, update and
    select with filter; each may fail with a reason, and a failed operation
    changes nothing. *)

(** Modelled from the spec: the update primitive of the store, on one row.
    Columns present in the update object overwrite the row's; the others
    keep their value. *)
Definition apply_update (u : UpdateData.t) (r : MeasurementSetRow.t) : MeasurementSetRow.t :=
  MeasurementSetRow.mk
    (MeasurementSetRow.id r)
    (MeasurementSetRow.customer_id r)
    (MeasurementSetRow.date r)
    (MeasurementSetRow.measurements r)
    (MeasurementSetRow.job_number r)
    (MeasurementSetRow.request_date r)
    (default (MeasurementSetRow.payment_status r) (UpdateData.payment_status u))
    (default (MeasurementSetRow.order_status r) (UpdateData.order_status u))
    (match UpdateData.completion_date u with
     | Some d => Some d
     | None => MeasurementSetRow.completion_date r
     end)
    (match UpdateData.handover_date u with
     | Some d => Some d
     | None => MeasurementSetRow.handover_date r
     end).

(** [.update(u).eq('id', setId)] on the rows of the table. *)
Definition update_eq_id (u : UpdateData.t) (setId : string)
    (rows : list MeasurementSetRow.t) : list MeasurementSetRow.t :=
  (λ r, if String.eqb (MeasurementSetRow.id r) setId then apply_update u r else r) <$> rows.

(** [supabase.from('measurement_sets').update(u).eq('id', setId)]: the
    request is sent; a failing store changes nothing and answers with its
    error, otherwise the update is applied. *)
Definition measurement_sets_update (env : Env) (u : UpdateData.t) (setId : string)
    : Action (option string) :=
  _ ← record_call (MeasurementSetsUpdate u setId);
  match store_error env with
  | Some e => mret (Some e)
  | None =>
      w ← get_world;
      _ ← set_measurement_sets (update_eq_id u setId (measurement_sets w));
      mret None
  end.

(** Modelled from the spec: the insert primitive of the store.  The store
    supplies the id of the new row, and the columns the insert leaves out
    (the optional completion and handover dates) are null. *)
Definition inserted_row (new_id : string) (d : InsertData.t) : MeasurementSetRow.t :=
  MeasurementSetRow.mk new_id
    (InsertData.customer_id d) (InsertData.date d) (InsertData.measurements d)
    (InsertData.job_number d) (InsertData.request_date d)
    (InsertData.payment_status d) (InsertData.order_status d)
    None None.

Definition measurement_sets_insert (env : Env) (d : InsertData.t) : Action (option string) :=
  _ ← record_call (MeasurementSetsInsert d);
  match store_error env with
  | Some e => mret (Some e)
  | None =>
      w ← get_world;
      _ ← set_measurement_sets (measurement_sets w ++ [inserted_row (store_new_id env) d]);
      mret None
  end.

(** ** Measurement actions *)

Definition addMeasurementSet (env : Env) (customerId : string)
    (measurementSet : MeasurementSet.t) : Action ActionResult :=
  error ← measurement_sets_insert env
    (InsertData.mk customerId (now env)
       (MeasurementSet.measurements measurementSet)
       (MeasurementSet.jobNumber measurementSet)
       (MeasurementSet.requestDate measurementSet)
       (MeasurementSet.paymentStatus measurementSet)
       (MeasurementSet.orderStatus measurementSet));
  match error with
  | Some e =>
      _ ← console_error ("Supabase error: " ++ e);
      mret (Failure "Failed to add measurement set." None)
  | None =>
      _ ← revalidatePath ("/dashboard/customer/" ++ customerId);
      mret Success
  end.

(** The [updateData] object of [updateOrderStatus], as it stands when the
    update is sent. *)
Definition orderStatusUpdateData (env : Env) (newStatus : string) : UpdateData.t :=
  let updateData := UpdateData.mk None (Some newStatus) None None in
  if String.eqb newStatus "Completed" then
    UpdateData.mk (UpdateData.payment_status updateData) (UpdateData.order_status updateData)
                  (Some (now env)) (UpdateData.handover_date updateData)
  else if String.eqb newStatus "Handed Over" then
    UpdateData.mk (UpdateData.payment_status updateData) (UpdateData.order_status updateData)
                  (UpdateData.completion_date updateData) (Some (now env))
  else updateData.

Definition updateOrderStatus (env : Env) (setId customerId newStatus : string)
    : Action ActionResult :=
  error ← measurement_sets_update env (orderStatusUpdateData env newStatus) setId;
  match error with
  | Some _ => mret (Failure "Failed to update order status." None)
  | None =>
      _ ← revalidatePath ("/dashboard/customer/" ++ customerId);
      mret Success
  end.

Definition updatePaymentStatus (env : Env) (setId customerId newStatus : string)
    : Action ActionResult :=
  error ← measurement_sets_update env (UpdateData.mk (Some newStatus) None None None) setId;
  match error with
  | Some _ => mret (Failure "Failed to update payment status." None)
  | None =>
      _ ← revalidatePath ("/dashboard/customer/" ++ customerId);
      mret Success
  end.

(** ** Form data *)

(** A [FormData] entry value is a string or a file. *)
Inductive FormDataEntryValue :=
| Text (s : string)
| File (filename : string).

Abbreviation FormData := (list (string * FormDataEntryValue)).

(** [Object.fromEntries(formData.entries())]: a later entry replaces an
    earlier one of the same name. *)
Definition fromEntries (formData : FormData) : gmap string FormDataEntryValue :=
  foldl (λ obj kv, <[kv.1 := kv.2]> obj) ∅ formData.

(** ** The validation library (zod)

    zod is an external library; what follows models the part of it the
    schemas use: [z.string()] with its [min] and [email] checks,
    [.optional()], [z.object(...)], [safeParse] and
    [error.flatten().fieldErrors].

    A JavaScript string is held as its UTF-8 encoding, which is what a
    string literal of this file is; the entries of a [FormData] are scalar
    value strings, so each has one.  Equality, concatenation and the
    patterns below, whose classes are all ASCII, read the same on the bytes
    as on the string; its [.length], which counts UTF-16 code units, is
    [js_length]. *)

(** The UTF-16 code units a byte of the encoding stands for: one for the
    only byte of a character below U+0080 and for the first byte of a
    character of two or three bytes (below U+10000), two for the first byte
    of a character of four bytes (a surrogate pair), none for a
    continuation byte. *)
Definition code_units_of_byte (b : ascii) : nat :=
  let n := N_of_ascii b in
  if (n <? 128)%N then 1
  else if (n <? 192)%N then 0
  else if (n <? 240)%N then 1
  else 2.

(** [s.length]: the number of UTF-16 code units of the string. *)
Fixpoint js_length (s : string) : nat :=
  match s with
  | EmptyString => 0
  | String b s' => code_units_of_byte b + js_length s'
  end.

(** Regular expressions, matched with derivatives. *)
Inductive regex :=
| Void
| Eps
| Chr (c : ascii)
| Class (p : ascii → bool)
| Seq (r1 r2 : regex)
| Alt (r1 r2 : regex)
| Star (r : regex).

Fixpoint nullable (r : regex) : bool :=
  match r with
  | Void => false
  | Eps => true
  | Chr _ => false
  | Class _ => false
  | Seq r1 r2 => nullable r1 && nullable r2
  | Alt r1 r2 => nullable r1 || nullable r2
  | Star _ => true
  end.

Fixpoint deriv (a : ascii) (r : regex) : regex :=
  match r with
  | Void => Void
  | Eps => Void
  | Chr c => if Ascii.eqb a c then Eps else Void
  | Class p => if p a then Eps else Void
  | Seq r1 r2 =>
      if nullable r1 then Alt (Seq (deriv a r1) r2) (deriv a r2)
      else Seq (deriv a r1) r2
  | Alt r1 r2 => Alt (deriv a r1) (deriv a r2)
  | Star r1 => Seq (deriv a r1) (Star r1)
  end.

(** [matches r s]: the whole of [s] is in the language of [r]. *)
Fixpoint matches (r : regex) (s : string) : bool :=
  match s with
  | EmptyString => nullable r
  | String a s' => matches (deriv a r) s'
  end.

Definition Plus (r : regex) : regex := Seq r (Star r).

Definition in_range (lo hi : N) (c : ascii) : bool :=
  (lo <=? N_of_ascii c)%N && (N_of_ascii c <=? hi)%N.

(** [[A-Z]] under the [i] flag. *)
Definition letter (c : ascii) : bool := in_range 65 90 c || in_range 97 122 c.
Definition digit (c : ascii) : bool := in_range 48 57 c.
Definition one_of (cs : string) (c : ascii) : bool :=
  existsb (Ascii.eqb c) (list_ascii_of_string cs).

(** The [.] of a JavaScript pattern: anything but a line terminator. *)
Definition not_line_terminator (c : ascii) : bool :=
  negb (one_of (String "010" (String "013" EmptyString)) c).

(** The pattern of [z.string().email()], case-insensitive and anchored at
    both ends.  It opens with two negative look-aheads, for a leading dot
    and for two dots in a row ([starts_with_dot], [has_dot_dot]); then
    - the local part: any number of [A-Z0-9_'+-.] and one of [A-Z0-9_+-];
    - the character @;
    - one or more labels [A-Z0-9] [A-Z0-9-]... each closed by a dot;
    - two or more of [A-Z]. *)
Definition emailBody : regex :=
  Seq (Star (Class (λ c, letter c || digit c || one_of "_'+-." c)))
  (Seq (Class (λ c, letter c || digit c || one_of "_+-" c))
  (Seq (Chr "@")
  (Seq (Plus (Seq (Class (λ c, letter c || digit c))
             (Seq (Star (Class (λ c, letter c || digit c || one_of "-" c)))
                  (Chr "."))))
       (Seq (Class letter) (Seq (Class letter) (Star (Class letter))))))).

Definition starts_with_dot (s : string) : bool :=
  match s with
  | String c _ => Ascii.eqb c "."
  | EmptyString => false
  end.

Definition has_dot_dot (s : string) : bool :=
  matches (Seq (Star (Class not_line_terminator))
          (Seq (Chr ".") (Seq (Chr ".") (Star (Class (λ _, true)))))) s.

Definition emailRegex_test (s : string) : bool :=
  negb (starts_with_dot s) && negb (has_dot_dot s) && matches emailBody s.

(** The checks of a string schema, and the schema types in use. *)
Inductive Check :=
| Min (value : nat) (message : option string)
| Email.

Inductive ZodType :=
| ZodString (checks : list Check)
| ZodOptional (inner : ZodType).

(** The issue a check raises on a string, if any. *)
Definition check_issue (s : string) (c : Check) : option string :=
  match c with
  | Min value message =>
      if Nat.ltb (js_length s) value then
        Some (default ("String must contain at least " ++ pretty value ++ " character(s)")
                      message)
      else None
  | Email => if emailRegex_test s then None else Some "Invalid email"
  end.

(** Parsing one value: the issues raised (left), or the parsed value, which
    is absent for an optional key that is not there (right). *)
Fixpoint parse (t : ZodType) (input : option FormDataEntryValue)
    : list string + option string :=
  match t with
  | ZodString checks =>
      match input with
      | None => inl ["Required"]
      | Some (File _) => inl ["Expected string, received object"]
      | Some (Text s) =>
          match omap (check_issue s) checks with
          | [] => inr (Some s)
          | issues => inl issues
          end
      end
  | ZodOptional inner =>
      match input with
      | None => inr None
      | Some _ => parse inner input
      end
  end.

(** [z.object(shape)]: every key of the shape is parsed, the issues are
    collected under the key, and keys outside the shape are stripped. *)
Fixpoint parse_object (shape : list (string * ZodType))
    (input : gmap string FormDataEntryValue)
    : list (string * string) * gmap string string :=
  match shape with
  | [] => ([], ∅)
  | (key, t) :: shape' =>
      let '(issues, data) := parse_object shape' input in
      match parse t (input !! key) with
      | inl msgs => ((((λ m, (key, m)) <$> msgs) ++ issues)%list, data)
      | inr None => (issues, data)
      | inr (Some s) => (issues, <[key := s]> data)
      end
  end.

Inductive SafeParseReturn :=
| ParseSuccess (data : gmap string string)          (* [{ success: true, data }] *)
| ParseError (issues : list (string * string)).      (* [{ success: false, error }] *)

Definition safeParse (shape : list (string * ZodType))
    (input : gmap string FormDataEntryValue) : SafeParseReturn :=
  match parse_object shape input with
  | ([], data) => ParseSuccess data
  | (issues, _) => ParseError issues
  end.

(** [error.flatten().fieldErrors]: the messages of each key, in order. *)
Definition fieldErrors (issues : list (string * string)) : gmap string (list string) :=
  foldl (λ (acc : gmap string (list string)) (km : string * string),
           <[km.1 := (default [] (acc !! km.1) ++ [km.2])%list]> acc) ∅ issues.

(** ** Authentication actions *)

Definition loginSchema : list (string * ZodType) :=
  [ ("email", ZodString [Email]);
    ("password", ZodString [Min 6 None]) ].

Definition signupSchema : list (string * ZodType) :=
  [ ("email", ZodString [Email]);
    ("password", ZodString [Min 6 None]) ].

(** [supabase.auth.signInWithPassword]: on success the session is that of
    the identity the credentials resolve to. *)
Definition signInWithPassword (response : option string) (identity : string)
    (email password : string) : Action (option string) :=
  _ ← record_call (AuthSignInWithPassword email password);
  match response with
  | Some e => mret (Some e)
  | None => _ ← set_session (Some identity); mret None
  end.

Definition signUp (response : option string) (email password emailRedirectTo : string)
    : Action (option string) :=
  _ ← record_call (AuthSignUp email password emailRedirectTo);
  mret response.

Definition getUser : Action (option string) :=
  _ ← record_call AuthGetUser;
  w ← get_world;
  mret (session w).

Definition login (env : Env) (formData : FormData) : Action ActionResult :=
  match safeParse loginSchema (fromEntries formData) with
  | ParseError _ => mret (Failure "Invalid fields" None)
  | ParseSuccess data =>
      let email := default "" (data !! "email") in
      let password := default "" (data !! "password") in
      error ← signInWithPassword (auth_error env) (auth_identity env) email password;
      match error with
      | Some _ => mret (Failure "Could not authenticate user" None)
      | None => mret (Redirect "/dashboard")
      end
  end.

Definition signup (env : Env) (formData : FormData) : Action ActionResult :=
  match safeParse signupSchema (fromEntries formData) with
  | ParseError _ => mret (Failure "Invalid fields" None)
  | ParseSuccess data =>
      let email := default "" (data !! "email") in
      let password := default "" (data !! "password") in
      error ← signUp (auth_error env) email password
                (default "null" (origin env) ++ "/auth/callback");
      match error with
      | Some _ => mret (Failure "Could not authenticate user" None)
      | None =>
          _ ← signInWithPassword (relogin_error env) (auth_identity env) email password;
          mret (Redirect "/dashboard")
      end
  end.

(** ** Customer actions *)

Definition customerFormSchema : list (string * ZodType) :=
  [ ("name", ZodString [Min 2 (Some "Name must be at least 2 characters.")]);
    ("nic", ZodString [Min 5 (Some "NIC must be at least 5 characters.")]);
    ("contact", ZodString [Min 5 (Some "Contact information is required.")]);
    ("orderHistory", ZodOptional (ZodString []));
    ("preferences", ZodOptional (ZodString [])) ].

(** The row the store makes of an insert into [customers]: columns are
    taken from the payload by name, the id and [created_at] are the
    store's. *)
Definition customer_of_payload (new_id created : string) (payload : gmap string string)
    : CustomerRow.t :=
  CustomerRow.mk new_id
    (default "" (payload !! "name"))
    (default "" (payload !! "nic"))
    (default "" (payload !! "contact"))
    (payload !! "order_history")
    (payload !! "preferences")
    created
    (default "" (payload !! "user_id")).

(** [.insert(payload).select('id').single()] on [customers]: the error, or
    the id of the new row. *)
Definition customers_insert (env : Env) (payload : gmap string string)
    : Action (string + string) :=
  _ ← record_call (CustomersInsert payload);
  match store_error env with
  | Some e => mret (inl e)
  | None =>
      w ← get_world;
      _ ← set_customers
            (customers w ++ [customer_of_payload (store_new_id env) (store_created_at env) payload]);
      mret (inr (store_new_id env))
  end.

Definition patch_customer (payload : gmap string string) (r : CustomerRow.t) : CustomerRow.t :=
  CustomerRow.mk
    (CustomerRow.id r)
    (default (CustomerRow.name r) (payload !! "name"))
    (default (CustomerRow.nic r) (payload !! "nic"))
    (default (CustomerRow.contact r) (payload !! "contact"))
    (match payload !! "order_history" with
     | Some v => Some v
     | None => CustomerRow.order_history r
     end)
    (match payload !! "preferences" with
     | Some v => Some v
     | None => CustomerRow.preferences r
     end)
    (CustomerRow.created_at r)
    (CustomerRow.user_id r).

(** [.update(payload).eq('id', customerId)] on [customers]. *)
Definition customers_update (env : Env) (payload : gmap string string) (customerId : string)
    : Action (option string) :=
  _ ← record_call (CustomersUpdate payload customerId);
  match store_error env with
  | Some e => mret (Some e)
  | None =>
      w ← get_world;
      _ ← set_customers
            ((λ r, if String.eqb (CustomerRow.id r) customerId
                   then patch_customer payload r else r) <$> customers w);
      mret None
  end.

Definition createCustomer (env : Env) (formData : FormData) : Action ActionResult :=
  match safeParse customerFormSchema (fromEntries formData) with
  | ParseError issues => mret (Failure "Invalid fields" (Some (fieldErrors issues)))
  | ParseSuccess data =>
      user ← getUser;
      match user with
      | None => mret (Failure "You must be logged in to create a customer." None)
      | Some user_id =>
          r ← customers_insert env (<["user_id" := user_id]> data);
          match r with
          | inl _ => mret (Failure "Failed to create customer." None)
          | inr id =>
              _ ← revalidatePath "/dashboard";
              mret (Redirect ("/dashboard/customer/" ++ id))
          end
      end
  end.

Definition updateCustomer (env : Env) (customerId : string) (formData : FormData)
    : Action ActionResult :=
  match safeParse customerFormSchema (fromEntries formData) with
  | ParseError issues => mret (Failure "Invalid fields" (Some (fieldErrors issues)))
  | ParseSuccess data =>
      error ← customers_update env data customerId;
      match error with
      | Some _ => mret (Failure "Failed to update customer." None)
      | None =>
          _ ← revalidatePath "/dashboard";
          _ ← revalidatePath ("/dashboard/customer/" ++ customerId);
          mret Success
      end
  end.

(** ** Data fetching *)

(** [.order('created_at', { ascending: false })]. *)
Definition created_at_desc (a b : CustomerRow.t) : Prop :=
  Is_true (String.leb (CustomerRow.created_at b) (CustomerRow.created_at a)).

#[global] Instance created_at_desc_dec a b : Decision (created_at_desc a b).
Proof. unfold created_at_desc. apply _. Defined.

(** The embedded resource [measurement_sets(job_number, order_status)] of a
    customer. *)
Definition joined_sets (c : CustomerRow.t) (sets : list MeasurementSetRow.t)
    : list (option string * string) :=
  (λ ms, (MeasurementSetRow.job_number ms, MeasurementSetRow.order_status ms)) <$>
  filter (λ ms, MeasurementSetRow.customer_id ms = CustomerRow.id c) sets.

(** The select of [getCustomers]: the error, or the rows with their sets. *)
Definition customers_select (env : Env)
    : Action (string + list (CustomerRow.t * list (option string * string))) :=
  _ ← record_call CustomersSelect;
  match store_error env with
  | Some e => mret (inl e)
  | None =>
      w ← get_world;
      mret (inr ((λ c, (c, joined_sets c (measurement_sets w))) <$>
                 merge_sort created_at_desc (customers w)))
  end.

Definition getCustomers (env : Env) : Action (list Customer.t) :=
  r ← customers_select env;
  match r with
  | inl e =>
      _ ← console_error e;
      mret []
  | inr data =>
      mret ((λ c, Customer.mk c.1 c.2 c.2) <$> data)
  end.

(** ** Sequences of status updates *)

(** One [updateOrderStatus] request: its arguments and the answers of the
    collaborators while it runs. *)
Module OrderStatusCall.
Record t := mk {
  env : Env;
  setId : string;
  customerId : string;
  newStatus : string
}.
End OrderStatusCall.


(** ** Auxiliary notions for the statements *)

(** [contains c s]: the character [c] occurs in [s]. *)
Fixpoint contains (c : ascii) (s : string) : bool :=
  match s with
  | EmptyString => false
  | String a s' => Ascii.eqb a c || contains c s'
  end.

(** [avoidable c r]: a sound test for "[r] may match a string in which [c]
    does not occur"; when it is [false], every match of [r] contains [c]. *)
Fixpoint avoidable (c : ascii) (r : regex) : bool :=
  match r with
  | Void => false
  | Eps => true
  | Chr d => negb (Ascii.eqb d c)
  | Class _ => true
  | Seq r1 r2 => avoidable c r1 && avoidable c r2
  | Alt r1 r2 => avoidable c r1 || avoidable c r2
  | Star _ => true
  end.

(** Sample data: a store holding one customer with one pending order. *)
Module Sample.
Definition env : Env :=
  mkEnv "2024-05-01T09:30:00.000Z" (Some "http://localhost:3000")
        None "user-1" None None "set-2" "2024-05-01T09:30:00.000Z".

Definition failing_env : Env :=
  mkEnv "2024-05-01T09:30:00.000Z" (Some "http://localhost:3000")
        None "user-1" None (Some "connection refused") "set-2"
        "2024-05-01T09:30:00.000Z".

Definition pending_set : MeasurementSetRow.t :=
  MeasurementSetRow.mk "set-1" "cust-1" "2024-04-01T08:00:00.000Z"
    [("chest", "40"); ("waist", "34")] (Some "J-17") None
    "Unpaid" "Pending" None None.

Definition customer : CustomerRow.t :=
  CustomerRow.mk "cust-1" "A B" "12345" "0771234567" None None
    "2024-03-01T10:00:00.000Z" "user-1".

Definition world : World :=
  mkWorld [customer] [pending_set] (Some "user-1") [] [] [].

Definition empty_world : World :=
  mkWorld [] [] (Some "user-2") [] [] [].

Definition new_set : MeasurementSet.t :=
  MeasurementSet.mk [("sleeve", "24")] (Some "J-18") (Some "2024-05-10")
    "Partial" "In Progress" None None.

Definition short_password_form : FormData :=
  [("email", Text "shop@example.com"); ("password", Text "12345")].

Definition good_login_form : FormData :=
  [("email", Text "shop@example.com"); ("password", Text "123456")].

Definition no_at_form : FormData :=
  [("email", Text "shop.example.com"); ("password", Text "123456")].

Definition short_contact_form : FormData :=
  [("name", Text "A B"); ("nic", Text "12345"); ("contact", Text "0771")].

Definition short_name_form : FormData :=
  [("name", Text "A"); ("nic", Text "12345"); ("contact", Text "0771234567")].
End Sample.

(** ** Signing out *)

(** [supabase.auth.signOut()]: when the provider accepts it the session is
    gone; when it answers with an error the session stays.  The answer is
    the argument [response]; the request is outside the log kept in
    [calls]. *)
Definition signOut (response : option string) : Action (option string) :=
  match response with
  | Some e => mret (Some e)
  | None => _ ← set_session None; mret None
  end.

(** The answer of [signOut] is awaited and dropped. *)
Definition logout (response : option string) : Action ActionResult :=
  _ ← signOut response;
  mret (Redirect "/login").

(** ** Pages

    Markup is out of scope: a rendered page is named by its component, the
    dashboard layout with the children it wraps. *)
Inductive Page :=
| Dashboard (children : string)
| LoginForm.

Inductive PageResult :=
| Rendered (page : Page)
| Redirected (path : string).

Definition DashboardLayout (children : string) : Action PageResult :=
  user ← getUser;
  match user with
  | None => mret (Redirected "/login")
  | Some _ => mret (Rendered (Dashboard children))
  end.

Definition LoginPage : Action PageResult :=
  user ← getUser;
  match user with
  | Some _ => mret (Redirected "/dashboard")
  | None => mret (Rendered LoginForm)
  end.

(** ** Deleting a customer *)

(** Modelled from the spec: the delete primitive of the store on
    [customers], with the cascade to the customer's measurement sets that
    the backing store performs.  The request is outside the log kept in
    [calls]. *)
Definition customers_delete (env : Env) (customerId : string) : Action (option string) :=
  match store_error env with
  | Some e => mret (Some e)
  | None =>
      w ← get_world;
      _ ← set_customers (filter (λ c, CustomerRow.id c ≠ customerId) (customers w));
      _ ← set_measurement_sets
            (filter (λ ms, MeasurementSetRow.customer_id ms ≠ customerId)
                    (measurement_sets w));
      mret None
  end.

Definition deleteCustomer (env : Env) (customerId : string) : Action ActionResult :=
  error ← customers_delete env customerId;
  match error with
  | Some _ => mret (Failure "Failed to delete customer." None)
  | None =>
      _ ← revalidatePath "/dashboard";
      mret (Redirect "/dashboard")
  end.

(** ** Fetching one customer *)

(** Modelled from the spec: the declaration of [MeasurementSet] in
    [@/lib/types] is not among the sources; the fields are the ones
    [getCustomerById] builds. *)
Module FullMeasurementSet.
Record t := mk {
  id : string;
  date : string;
  measurements : Measurements;
  jobNumber : option string;
  requestDate : option string;
  paymentStatus : string;
  orderStatus : string;
  completionDate : option string;
  handoverDate : option string
}.
End FullMeasurementSet.

(** Modelled from the spec: the declaration of [Customer] in [@/lib/types]
    is not among the sources; the fields are the ones [getCustomerById]
    builds. *)
Module CustomerDetail.
Record t := mk {
  id : string;
  createdAt : string;
  name : string;
  nic : string;
  contact : string;
  orderHistory : string;
  preferences : string;
  measurementSets : list FullMeasurementSet.t
}.
End CustomerDetail.

(** [v || undefined] on a nullable string column: null and the empty
    string both give [undefined]. *)
Definition or_undefined (v : option string) : option string :=
  match v with
  | Some EmptyString => None
  | Some s => Some s
  | None => None
  end.

(** [v || ''] on a nullable string column. *)
Definition or_empty (v : option string) : string :=
  match v with
  | Some s => s
  | None => ""
  end.

(** The select of [getCustomerById], [.eq('id', id).single()]: the error,
    or the one row with all the columns of its measurement sets.  [single]
    is an error of its own unless exactly one row is selected; [not_single]
    is the reason the store gives then.  The request is outside the log
    kept in [calls]. *)
Definition customers_select_single (env : Env) (not_single : string) (id : string)
    : Action (string + CustomerRow.t * list MeasurementSetRow.t) :=
  match store_error env with
  | Some e => mret (inl e)
  | None =>
      w ← get_world;
      match filter (λ c, CustomerRow.id c = id) (customers w) with
      | [c] =>
          mret (inr (c, filter (λ ms, MeasurementSetRow.customer_id ms = CustomerRow.id c)
                               (measurement_sets w)))
      | _ => mret (inl not_single)
      end
  end.

(** The element of [measurementSets] that [getCustomerById] makes of a
    row. *)
Definition set_of_row (ms : MeasurementSetRow.t) : FullMeasurementSet.t :=
  FullMeasurementSet.mk
    (MeasurementSetRow.id ms)
    (MeasurementSetRow.date ms)
    (MeasurementSetRow.measurements ms)
    (or_undefined (MeasurementSetRow.job_number ms))
    (or_undefined (MeasurementSetRow.request_date ms))
    (MeasurementSetRow.payment_status ms)
    (MeasurementSetRow.order_status ms)
    (or_undefined (MeasurementSetRow.completion_date ms))
    (or_undefined (MeasurementSetRow.handover_date ms)).

Definition getCustomerById (env : Env) (not_single : string) (id : string)
    : Action (option CustomerDetail.t) :=
  r ← customers_select_single env not_single id;
  match r with
  | inl e =>
      _ ← console_error e;
      mret None
  | inr (data, sets) =>
      mret (Some (CustomerDetail.mk
                    (CustomerRow.id data)
                    (CustomerRow.created_at data)
                    (CustomerRow.name data)
                    (CustomerRow.nic data)
                    (CustomerRow.contact data)
                    (or_empty (CustomerRow.order_history data))
                    (or_empty (CustomerRow.preferences data))
                    (set_of_row <$> sets)))
  end.

(** ** Sequences of requests *)

(** One request to a server action, with its arguments. *)
Inductive Request :=
| ReqLogin (formData : FormData)
| ReqSignup (formData : FormData)
| ReqLogout (response : option string)
| ReqCreateCustomer (formData : FormData)
| ReqUpdateCustomer (customerId : string) (formData : FormData)
| ReqDeleteCustomer (customerId : string)
| ReqAddMeasurementSet (customerId : string) (measurementSet : MeasurementSet.t)
| ReqUpdateOrderStatus (setId customerId newStatus : string)
| ReqUpdatePaymentStatus (setId customerId newStatus : string)
| ReqGetCustomers
| ReqGetCustomerById (not_single : string) (id : string).

(** The world after one request has been served. *)
Definition serve (env : Env) (r : Request) (w : World) : World :=
  match r with
  | ReqLogin formData => (login env formData w).2
  | ReqSignup formData => (signup env formData w).2
  | ReqLogout response => (logout response w).2
  | ReqCreateCustomer formData => (createCustomer env formData w).2
  | ReqUpdateCustomer customerId formData => (updateCustomer env customerId formData w).2
  | ReqDeleteCustomer customerId => (deleteCustomer env customerId w).2
  | ReqAddMeasurementSet customerId measurementSet =>
      (addMeasurementSet env customerId measurementSet w).2
  | ReqUpdateOrderStatus setId customerId newStatus =>
      (updateOrderStatus env setId customerId newStatus w).2
  | ReqUpdatePaymentStatus setId customerId newStatus =>
      (updatePaymentStatus env setId customerId newStatus w).2
  | ReqGetCustomers => (getCustomers env w).2
  | ReqGetCustomerById not_single id => (getCustomerById env not_single id w).2
  end.

(** The world after the requests have been served one after the other, each
    with the answers of the collaborators while it runs. *)
Fixpoint serve_all (rs : list (Env * Request)) (w : World) : World :=
  match rs with
  | [] => w
  | (env, r) :: rs' => serve_all rs' (serve env r w)
  end.

(** [is_delete r]: the request is a [deleteCustomer]. *)
Definition is_delete (r : Request) : bool :=
  match r with
  | ReqDeleteCustomer _ => true
  | _ => false
  end.

(** [same_state w w']: both tables, the session and the invalidated cache
    paths of [w'] are those of [w]. *)
Definition same_state (w w' : World) : Prop :=
  customers w' = customers w ∧
  measurement_sets w' = measurement_sets w ∧
  session w' = session w ∧
  revalidated w' = revalidated w.

(** [customer_kept c c']: [c'] is the customer [c], possibly edited: same
    id, creation time and owner. *)
Definition customer_kept (c c' : CustomerRow.t) : Prop :=
  CustomerRow.id c' = CustomerRow.id c ∧
  CustomerRow.created_at c' = CustomerRow.created_at c ∧
  CustomerRow.user_id c' = CustomerRow.user_id c.

(** [set_kept r r']: [r'] is the measurement set [r], possibly with other
    statuses and later dates: same id, customer, creation date,
    measurements, job number and request date, and no date lost. *)
Definition set_kept (r r' : MeasurementSetRow.t) : Prop :=
  MeasurementSetRow.id r' = MeasurementSetRow.id r ∧
  MeasurementSetRow.customer_id r' = MeasurementSetRow.customer_id r ∧
  MeasurementSetRow.date r' = MeasurementSetRow.date r ∧
  MeasurementSetRow.measurements r' = MeasurementSetRow.measurements r ∧
  MeasurementSetRow.job_number r' = MeasurementSetRow.job_number r ∧
  MeasurementSetRow.request_date r' = MeasurementSetRow.request_date r ∧
  (is_Some (MeasurementSetRow.completion_date r) →
   is_Some (MeasurementSetRow.completion_date r')) ∧
  (is_Some (MeasurementSetRow.handover_date r) →
   is_Some (MeasurementSetRow.handover_date r')).

(** [rows_kept w w']: every customer and every measurement set of [w] is
    still there in [w'], at the same place. *)
Definition rows_kept (w w' : World) : Prop :=
  (∀ (i : nat) c, customers w !! i = Some c →
     ∃ c', customers w' !! i = Some c' ∧ customer_kept c c') ∧
  (∀ (i : nat) r, measurement_sets w !! i = Some r →
     ∃ r', measurement_sets w' !! i = Some r' ∧ set_kept r r').

(** The keys of the customer form schema. *)
Definition customerFormKeys : list string :=
  customerFormSchema.*1.

(** More sample data: a shop with two customers and three orders. *)
Module Shop.
Definition later_env : Env :=
  mkEnv "2024-06-02T11:00:00.000Z" (Some "http://localhost:3000")
        None "user-1" None None "cust-3" "2024-06-02T11:00:00.000Z".

Definition adding_env : Env :=
  mkEnv "2024-06-01T09:00:00.000Z" (Some "http://localhost:3000")
        None "user-1" None None "set-4" "2024-06-01T09:00:00.000Z".

Definition refusing_env : Env :=
  mkEnv "2024-06-02T11:00:00.000Z" None (Some "Invalid login credentials")
        "user-1" (Some "Email not confirmed") None "cust-3"
        "2024-06-02T11:00:00.000Z".

Definition unconfirmed_env : Env :=
  mkEnv "2024-06-02T11:00:00.000Z" None None
        "user-1" (Some "Email not confirmed") None "cust-3"
        "2024-06-02T11:00:00.000Z".

Definition second_customer : CustomerRow.t :=
  CustomerRow.mk "cust-2" "C D" "67890" "0719876543" (Some "two suits") None
    "2024-04-15T10:00:00.000Z" "user-1".

Definition second_set : MeasurementSetRow.t :=
  MeasurementSetRow.mk "set-2" "cust-2" "2024-04-20T08:00:00.000Z"
    [("inseam", "31")] (Some "") None "Paid" "Completed"
    (Some "2024-04-25T16:00:00.000Z") None.

Definition third_set : MeasurementSetRow.t :=
  MeasurementSetRow.mk "set-3" "cust-1" "2024-04-22T08:00:00.000Z"
    [("neck", "15")] None (Some "2024-05-20") "Partial" "In Progress" None None.

Definition world : World :=
  mkWorld [Sample.customer; second_customer]
          [Sample.pending_set; second_set; third_set]
          (Some "user-1") [] [] [].

Definition signed_out : World :=
  mkWorld [Sample.customer; second_customer]
          [Sample.pending_set; second_set; third_set]
          None [] [] [].

Definition customer_form : FormData :=
  [("name", Text "E F"); ("nic", Text "24680"); ("contact", Text "0751112223");
   ("user_id", Text "user-9"); ("id", Text "cust-1")].
End Shop.

(** Sample forms whose entries are not ASCII: their length in code units
    is not their length in bytes. *)
Module Unicode.
Definition short_password_form : FormData :=
  [("email", Text "shop@example.com"); ("password", Text "парол")].

Definition umlaut_password_form : FormData :=
  [("email", Text "shop@example.com"); ("password", Text "äöü")].

Definition good_login_form : FormData :=
  [("email", Text "shop@example.com"); ("password", Text "пароль")].

Definition short_name_form : FormData :=
  [("name", Text "අ"); ("nic", Text "12345"); ("contact", Text "0771234567")].

Definition customer_form : FormData :=
  [("name", Text "අජ"); ("nic", Text "12345"); ("contact", Text "0771234567")].
End Unicode.

(** * Properties *)

(** ** Unfolding the handlers *)

Ltac run_action :=
  unfold mbind, action_bind, mret, action_ret, record_call, set_measurement_sets,
    set_customers, set_session, revalidatePath, console_error, get_world; simpl.

Lemma updateOrderStatus_run env setId customerId newStatus w :
  updateOrderStatus env setId customerId newStatus w =
  let u := orderStatusUpdateData env newStatus in
  match store_error env with
  | Some _ =>
      (Failure "Failed to update order status." None,
       mkWorld (customers w) (measurement_sets w) (session w) (revalidated w)
               (console w) (calls w ++ [MeasurementSetsUpdate u setId]))
  | None =>
      (Success,
       mkWorld (customers w) (update_eq_id u setId (measurement_sets w)) (session w)
               (revalidated w ++ ["/dashboard/customer/" ++ customerId])
               (console w) (calls w ++ [MeasurementSetsUpdate u setId]))
  end.
Proof.
  unfold updateOrderStatus, measurement_sets_update. run_action.
  destruct (store_error env); reflexivity.
Qed.

Lemma updatePaymentStatus_run env setId customerId newStatus w :
  updatePaymentStatus env setId customerId newStatus w =
  let u := UpdateData.mk (Some newStatus) None None None in
  match store_error env with
  | Some _ =>
      (Failure "Failed to update payment status." None,
       mkWorld (customers w) (measurement_sets w) (session w) (revalidated w)
               (console w) (calls w ++ [MeasurementSetsUpdate u setId]))
  | None =>
      (Success,
       mkWorld (customers w) (update_eq_id u setId (measurement_sets w)) (session w)
               (revalidated w ++ ["/dashboard/customer/" ++ customerId])
               (console w) (calls w ++ [MeasurementSetsUpdate u setId]))
  end.
Proof.
  unfold updatePaymentStatus, measurement_sets_update. run_action.
  destruct (store_error env); reflexivity.
Qed.

Lemma update_eq_id_lookup u setId (rows : list MeasurementSetRow.t) i :
  update_eq_id u setId rows !! i =
  (λ r, if String.eqb (MeasurementSetRow.id r) setId then apply_update u r else r)
    <$> rows !! i.
Proof. unfold update_eq_id. apply list_lookup_fmap. Qed.

Lemma update_eq_id_length u setId (rows : list MeasurementSetRow.t) :
  length (update_eq_id u setId rows) = length rows.
Proof. unfold update_eq_id. apply length_fmap. Qed.

(** The update object of [updateOrderStatus], case by case. *)
Lemma orderStatusUpdateData_cases env newStatus :
  orderStatusUpdateData env newStatus =
  UpdateData.mk None (Some newStatus)
    (if decide (newStatus = "Completed") then Some (now env) else None)
    (if decide (newStatus = "Handed Over") then Some (now env) else None).
Proof.
  unfold orderStatusUpdateData.
  destruct (String.eqb_spec newStatus "Completed") as [->|Hc].
  - reflexivity.
  - destruct (String.eqb_spec newStatus "Handed Over") as [->|Hh].
    + reflexivity.
    + simpl. repeat case_decide; congruence.
Qed.

(** What one applied [updateOrderStatus] makes of a row. *)
Lemma updateOrderStatus_row env setId customerId newStatus w (i : nat) r :
  measurement_sets w !! i = Some r →
  measurement_sets (updateOrderStatus env setId customerId newStatus w).2 !! i =
  Some (match store_error env with
        | Some _ => r
        | None =>
            if String.eqb (MeasurementSetRow.id r) setId
            then apply_update (orderStatusUpdateData env newStatus) r else r
        end).
Proof.
  intros Hr. rewrite updateOrderStatus_run. simpl.
  destruct (store_error env); simpl; [done|].
  by rewrite update_eq_id_lookup, Hr.
Qed.

Lemma updatePaymentStatus_row env setId customerId newStatus w (i : nat) r :
  measurement_sets w !! i = Some r →
  measurement_sets (updatePaymentStatus env setId customerId newStatus w).2 !! i =
  Some (match store_error env with
        | Some _ => r
        | None =>
            if String.eqb (MeasurementSetRow.id r) setId
            then apply_update (UpdateData.mk (Some newStatus) None None None) r else r
        end).
Proof.
  intros Hr. rewrite updatePaymentStatus_run. simpl.
  destruct (store_error env); simpl; [done|].
  by rewrite update_eq_id_lookup, Hr.
Qed.

(** ** Order status and its timestamps *)

(** C1.  When the store applies the update of
    [updateOrderStatus(setId, customerId, newStatus)], the row with id
    [setId] has [order_status = newStatus]; its completion date is the
    current time if [newStatus] is "Completed" and is not written otherwise;
    its handover date is the current time if [newStatus] is "Handed Over"
    and is not written otherwise.  The update object sent to the store says
    the same. *)
Theorem updateOrderStatus_overwrites_and_stamps
    env setId customerId newStatus w (i : nat) r :
  measurement_sets w !! i = Some r →
  MeasurementSetRow.id r = setId →
  store_error env = None →
  ∃ r',
    measurement_sets (updateOrderStatus env setId customerId newStatus w).2 !! i = Some r' ∧
    MeasurementSetRow.order_status r' = newStatus ∧
    MeasurementSetRow.completion_date r' =
      (if decide (newStatus = "Completed") then Some (now env)
       else MeasurementSetRow.completion_date r) ∧
    MeasurementSetRow.handover_date r' =
      (if decide (newStatus = "Handed Over") then Some (now env)
       else MeasurementSetRow.handover_date r) ∧
    calls (updateOrderStatus env setId customerId newStatus w).2 =
      (calls w ++
       [MeasurementSetsUpdate
          (UpdateData.mk None (Some newStatus)
             (if decide (newStatus = "Completed") then Some (now env) else None)
             (if decide (newStatus = "Handed Over") then Some (now env) else None))
          setId])%list.
Proof.
  intros Hr Hid Hok.
  eexists. split; [by apply updateOrderStatus_row|].
  rewrite updateOrderStatus_run, Hok. simpl.
  rewrite orderStatusUpdateData_cases.
  apply String.eqb_eq in Hid. rewrite Hid. simpl.
  repeat split; by repeat case_decide.
Qed.

Lemma updateOrderStatus_overwrites_and_stamps_witness :
  measurement_sets Sample.world !! 0 = Some Sample.pending_set ∧
  MeasurementSetRow.id Sample.pending_set = "set-1" ∧
  store_error Sample.env = None ∧
  ∃ r',
    measurement_sets
      (updateOrderStatus Sample.env "set-1" "cust-1" "Completed" Sample.world).2 !! 0
      = Some r' ∧
    MeasurementSetRow.order_status r' = "Completed" ∧
    MeasurementSetRow.completion_date r' = Some "2024-05-01T09:30:00.000Z" ∧
    MeasurementSetRow.handover_date r' = None.
Proof.
  repeat split; try reflexivity.
  destruct (updateOrderStatus_overwrites_and_stamps
              Sample.env "set-1" "cust-1" "Completed" Sample.world 0 Sample.pending_set
              eq_refl eq_refl eq_refl) as (r' & H1 & H2 & H3 & H4 & _).
  exists r'. repeat split; assumption.
Defined.

(** A single [updateOrderStatus] never turns a stamped date into null, and
    leaves a date alone unless the new status is the one that stamps it. *)
Lemma updateOrderStatus_keeps_dates env setId customerId newStatus w (i : nat) r :
  measurement_sets w !! i = Some r →
  ∃ r',
    measurement_sets (updateOrderStatus env setId customerId newStatus w).2 !! i = Some r' ∧
    (is_Some (MeasurementSetRow.completion_date r) →
     is_Some (MeasurementSetRow.completion_date r')) ∧
    (is_Some (MeasurementSetRow.handover_date r) →
     is_Some (MeasurementSetRow.handover_date r')) ∧
    (newStatus ≠ "Completed" →
     MeasurementSetRow.completion_date r' = MeasurementSetRow.completion_date r) ∧
    (newStatus ≠ "Handed Over" →
     MeasurementSetRow.handover_date r' = MeasurementSetRow.handover_date r) ∧
    MeasurementSetRow.payment_status r' = MeasurementSetRow.payment_status r.
Proof.
  intros Hr. eexists. split; [by apply updateOrderStatus_row|].
  rewrite orderStatusUpdateData_cases.
  destruct (store_error env); [done|].
  destruct (String.eqb _ setId); [|done]. simpl.
  repeat split; repeat case_decide; try done; eauto.
Qed.



(** C3.  Once a status update has been applied, sending the same update
    again (same [setId], same [newStatus]; whatever the time and whether or
    not the store applies it) leaves every stored status as the first one
    left it and clears no timestamp; this holds for [updateOrderStatus] and
    for [updatePaymentStatus]. *)
Theorem status_update_twice
    env1 env2 setId customerId1 customerId2 newStatus w (i : nat) r :
  store_error env1 = None →
  measurement_sets w !! i = Some r →
  (∃ r1 r2,
     measurement_sets (updateOrderStatus env1 setId customerId1 newStatus w).2 !! i
       = Some r1 ∧
     measurement_sets
       (updateOrderStatus env2 setId customerId2 newStatus
          (updateOrderStatus env1 setId customerId1 newStatus w).2).2 !! i
       = Some r2 ∧
     MeasurementSetRow.order_status r2 = MeasurementSetRow.order_status r1 ∧
     MeasurementSetRow.payment_status r2 = MeasurementSetRow.payment_status r1 ∧
     (is_Some (MeasurementSetRow.completion_date r1) →
      is_Some (MeasurementSetRow.completion_date r2)) ∧
     (is_Some (MeasurementSetRow.handover_date r1) →
      is_Some (MeasurementSetRow.handover_date r2))) ∧
  (∃ r1 r2,
     measurement_sets (updatePaymentStatus env1 setId customerId1 newStatus w).2 !! i
       = Some r1 ∧
     measurement_sets
       (updatePaymentStatus env2 setId customerId2 newStatus
          (updatePaymentStatus env1 setId customerId1 newStatus w).2).2 !! i
       = Some r2 ∧
     MeasurementSetRow.payment_status r2 = MeasurementSetRow.payment_status r1 ∧
     MeasurementSetRow.order_status r2 = MeasurementSetRow.order_status r1 ∧
     MeasurementSetRow.completion_date r2 = MeasurementSetRow.completion_date r1 ∧
     MeasurementSetRow.handover_date r2 = MeasurementSetRow.handover_date r1).
Proof.
  intros Hok Hr. split.
  - pose proof (updateOrderStatus_row env1 setId customerId1 newStatus w i r Hr) as H1.
    rewrite Hok in H1.
    eexists _, _. split; [exact H1|].
    split; [by apply updateOrderStatus_row|].
    rewrite !orderStatusUpdateData_cases.
    destruct (store_error env2); [done|].
    destruct (String.eqb (MeasurementSetRow.id r) setId) eqn:Hid; simpl.
    + rewrite Hid. simpl. repeat split; repeat case_decide; try done; eauto.
    + rewrite Hid. done.
  - pose proof (updatePaymentStatus_row env1 setId customerId1 newStatus w i r Hr) as H1.
    rewrite Hok in H1.
    eexists _, _. split; [exact H1|].
    split; [by apply updatePaymentStatus_row|].
    destruct (store_error env2); [done|].
    destruct (String.eqb (MeasurementSetRow.id r) setId) eqn:Hid; simpl.
    + rewrite Hid. done.
    + rewrite Hid. done.
Qed.

Lemma status_update_twice_witness :
  let later :=
    mkEnv "2024-05-02T11:00:00.000Z" None None "user-1" None None "set-3"
          "2024-05-02T11:00:00.000Z" in
  ∃ r1 r2,
    measurement_sets
      (updateOrderStatus Sample.env "set-1" "cust-1" "Completed" Sample.world).2 !! 0
      = Some r1 ∧
    measurement_sets
      (updateOrderStatus later "set-1" "cust-1" "Completed"
         (updateOrderStatus Sample.env "set-1" "cust-1" "Completed" Sample.world).2).2 !! 0
      = Some r2 ∧
    MeasurementSetRow.order_status r2 = MeasurementSetRow.order_status r1 ∧
    (is_Some (MeasurementSetRow.completion_date r1) →
     is_Some (MeasurementSetRow.completion_date r2)).
Proof.
  intros later.
  destruct (status_update_twice Sample.env later "set-1" "cust-1" "cust-1" "Completed"
              Sample.world 0 Sample.pending_set eq_refl eq_refl)
    as [(r1 & r2 & H1 & H2 & Hs & _ & Hc & _) _].
  exists r1, r2. repeat split; assumption.
Defined.

(** ** Frame of the two status updates *)

(** C4.  [updatePaymentStatus] sends an update object holding
    [payment_status] alone; after it every row has all its columns but
    [payment_status] as before, so no completion or handover date is written,
    and no row is added or removed.  [updateOrderStatus] sends an update
    object without [payment_status] and leaves the [payment_status] of every
    row as it was. *)
Theorem status_updates_frame env setId customerId newStatus w (i : nat) r :
  measurement_sets w !! i = Some r →
  (∃ r',
     measurement_sets (updatePaymentStatus env setId customerId newStatus w).2 !! i
       = Some r' ∧
     r' = MeasurementSetRow.mk
            (MeasurementSetRow.id r) (MeasurementSetRow.customer_id r)
            (MeasurementSetRow.date r) (MeasurementSetRow.measurements r)
            (MeasurementSetRow.job_number r) (MeasurementSetRow.request_date r)
            (MeasurementSetRow.payment_status r')
            (MeasurementSetRow.order_status r)
            (MeasurementSetRow.completion_date r) (MeasurementSetRow.handover_date r) ∧
     (MeasurementSetRow.id r ≠ setId → r' = r) ∧
     (MeasurementSetRow.id r = setId → store_error env = None →
      MeasurementSetRow.payment_status r' = newStatus)) ∧
  calls (updatePaymentStatus env setId customerId newStatus w).2 =
    (calls w ++ [MeasurementSetsUpdate (UpdateData.mk (Some newStatus) None None None) setId])%list ∧
  length (measurement_sets (updatePaymentStatus env setId customerId newStatus w).2) =
    length (measurement_sets w) ∧
  customers (updatePaymentStatus env setId customerId newStatus w).2 = customers w ∧
  (∃ r',
     measurement_sets (updateOrderStatus env setId customerId newStatus w).2 !! i
       = Some r' ∧
     MeasurementSetRow.payment_status r' = MeasurementSetRow.payment_status r) ∧
  (∃ u,
     calls (updateOrderStatus env setId customerId newStatus w).2 =
       (calls w ++ [MeasurementSetsUpdate u setId])%list ∧
     UpdateData.payment_status u = None).
Proof.
  intros Hr. repeat split.
  - eexists. split; [by apply updatePaymentStatus_row|].
    destruct r. simpl.
    destruct (store_error env); simpl.
    + repeat split; try done.
    + destruct (String.eqb_spec id setId) as [->|Hne]; simpl; by repeat split.
  - rewrite updatePaymentStatus_run. simpl. by destruct (store_error env).
  - rewrite updatePaymentStatus_run. simpl.
    destruct (store_error env); simpl; [done|]. apply update_eq_id_length.
  - rewrite updatePaymentStatus_run. simpl. by destruct (store_error env).
  - destruct (updateOrderStatus_keeps_dates env setId customerId newStatus w i r Hr)
      as (r' & Hr' & _ & _ & _ & _ & Hp).
    by exists r'.
  - exists (orderStatusUpdateData env newStatus). split.
    + rewrite updateOrderStatus_run. simpl. by destruct (store_error env).
    + by rewrite orderStatusUpdateData_cases.
Qed.

Lemma status_updates_frame_witness :
  (∃ r',
     measurement_sets
       (updatePaymentStatus Sample.env "set-1" "cust-1" "Paid" Sample.world).2 !! 0
       = Some r' ∧
     MeasurementSetRow.payment_status r' = "Paid" ∧
     MeasurementSetRow.order_status r' = "Pending" ∧
     MeasurementSetRow.completion_date r' = None ∧
     MeasurementSetRow.handover_date r' = None) ∧
  (∃ r',
     measurement_sets
       (updateOrderStatus Sample.env "set-1" "cust-1" "Paid" Sample.world).2 !! 0
       = Some r' ∧
     MeasurementSetRow.payment_status r' = "Unpaid").
Proof.
  destruct (status_updates_frame Sample.env "set-1" "cust-1" "Paid" Sample.world 0
              Sample.pending_set eq_refl)
    as ((r' & Hr' & Heq & _ & Hp) & _ & _ & _ & (r2 & Hr2 & Hp2) & _).
  split.
  - exists r'. split; [exact Hr'|]. split; [exact (Hp eq_refl eq_refl)|].
    rewrite Heq. repeat split.
  - exists r2. split; [exact Hr2|exact Hp2].
Defined.

(** ** The customer id argument *)

(** C9.  The result, both tables, the session, the console and the request
    sent to the store by [updateOrderStatus] and by [updatePaymentStatus] do
    not depend on [customerId]: the rows are those of [update_eq_id] on
    [setId] alone, whatever customer the row belongs to.  [customerId] only
    names the path that is revalidated. *)
Theorem customerId_only_names_revalidated_path
    env setId customerId1 customerId2 newStatus w :
  let o1 := updateOrderStatus env setId customerId1 newStatus w in
  let o2 := updateOrderStatus env setId customerId2 newStatus w in
  let p1 := updatePaymentStatus env setId customerId1 newStatus w in
  let p2 := updatePaymentStatus env setId customerId2 newStatus w in
  (o1.1 = o2.1 ∧
   measurement_sets o1.2 = measurement_sets o2.2 ∧
   customers o1.2 = customers o2.2 ∧
   session o1.2 = session o2.2 ∧
   console o1.2 = console o2.2 ∧
   calls o1.2 = calls o2.2 ∧
   measurement_sets o1.2 =
     match store_error env with
     | Some _ => measurement_sets w
     | None => update_eq_id (orderStatusUpdateData env newStatus) setId (measurement_sets w)
     end ∧
   revalidated o1.2 =
     match store_error env with
     | Some _ => revalidated w
     | None => (revalidated w ++ [("/dashboard/customer/" ++ customerId1)%string])%list
     end) ∧
  (p1.1 = p2.1 ∧
   measurement_sets p1.2 = measurement_sets p2.2 ∧
   customers p1.2 = customers p2.2 ∧
   session p1.2 = session p2.2 ∧
   console p1.2 = console p2.2 ∧
   calls p1.2 = calls p2.2 ∧
   measurement_sets p1.2 =
     match store_error env with
     | Some _ => measurement_sets w
     | None =>
         update_eq_id (UpdateData.mk (Some newStatus) None None None) setId
           (measurement_sets w)
     end ∧
   revalidated p1.2 =
     match store_error env with
     | Some _ => revalidated w
     | None => (revalidated w ++ [("/dashboard/customer/" ++ customerId1)%string])%list
     end).
Proof.
  intros o1 o2 p1 p2. subst o1 o2 p1 p2.
  rewrite !updateOrderStatus_run, !updatePaymentStatus_run. simpl.
  destruct (store_error env); simpl; by repeat split.
Qed.

(** ** Adding a measurement set *)

Lemma addMeasurementSet_run env customerId measurementSet w :
  addMeasurementSet env customerId measurementSet w =
  let d := InsertData.mk customerId (now env)
             (MeasurementSet.measurements measurementSet)
             (MeasurementSet.jobNumber measurementSet)
             (MeasurementSet.requestDate measurementSet)
             (MeasurementSet.paymentStatus measurementSet)
             (MeasurementSet.orderStatus measurementSet) in
  match store_error env with
  | Some e =>
      (Failure "Failed to add measurement set." None,
       mkWorld (customers w) (measurement_sets w) (session w) (revalidated w)
               (console w ++ ["Supabase error: " ++ e])
               (calls w ++ [MeasurementSetsInsert d]))
  | None =>
      (Success,
       mkWorld (customers w)
               (measurement_sets w ++ [inserted_row (store_new_id env) d]) (session w)
               (revalidated w ++ ["/dashboard/customer/" ++ customerId])
               (console w) (calls w ++ [MeasurementSetsInsert d]))
  end.
Proof.
  unfold addMeasurementSet, measurement_sets_insert. run_action.
  destruct (store_error env); reflexivity.
Qed.

(** C8.  When the store accepts the insert of
    [addMeasurementSet(customerId, measurementSet)], exactly one row is
    added; its creation date is the current time and its job number, request
    date, payment status and order status are the caller's values as they
    are.  The insert sent to the store carries these same values. *)
Theorem addMeasurementSet_copies_fields env customerId measurementSet w :
  store_error env = None →
  ∃ row,
    addMeasurementSet env customerId measurementSet w
      = (Success, (addMeasurementSet env customerId measurementSet w).2) ∧
    measurement_sets (addMeasurementSet env customerId measurementSet w).2
      = (measurement_sets w ++ [row])%list ∧
    MeasurementSetRow.date row = now env ∧
    MeasurementSetRow.job_number row = MeasurementSet.jobNumber measurementSet ∧
    MeasurementSetRow.request_date row = MeasurementSet.requestDate measurementSet ∧
    MeasurementSetRow.payment_status row = MeasurementSet.paymentStatus measurementSet ∧
    MeasurementSetRow.order_status row = MeasurementSet.orderStatus measurementSet ∧
    MeasurementSetRow.customer_id row = customerId ∧
    MeasurementSetRow.measurements row = MeasurementSet.measurements measurementSet ∧
    calls (addMeasurementSet env customerId measurementSet w).2
      = (calls w ++
         [MeasurementSetsInsert
            (InsertData.mk customerId (now env)
               (MeasurementSet.measurements measurementSet)
               (MeasurementSet.jobNumber measurementSet)
               (MeasurementSet.requestDate measurementSet)
               (MeasurementSet.paymentStatus measurementSet)
               (MeasurementSet.orderStatus measurementSet))])%list.
Proof.
  intros Hok. rewrite addMeasurementSet_run, Hok. simpl.
  eexists. split; [reflexivity|]. split; [reflexivity|]. by repeat split.
Qed.

Lemma addMeasurementSet_copies_fields_witness :
  store_error Sample.env = None ∧
  ∃ row,
    measurement_sets (addMeasurementSet Sample.env "cust-1" Sample.new_set Sample.world).2
      = [Sample.pending_set; row] ∧
    MeasurementSetRow.date row = "2024-05-01T09:30:00.000Z" ∧
    MeasurementSetRow.job_number row = Some "J-18" ∧
    MeasurementSetRow.request_date row = Some "2024-05-10" ∧
    MeasurementSetRow.payment_status row = "Partial" ∧
    MeasurementSetRow.order_status row = "In Progress".
Proof.
  split; [reflexivity|].
  destruct (addMeasurementSet_copies_fields Sample.env "cust-1" Sample.new_set
              Sample.world eq_refl)
    as (row & _ & Hrows & Hd & Hj & Hr & Hp & Ho & _).
  exists row. repeat split; assumption.
Defined.

(** ** Fetching the customers *)

(** C10.  When the select of [getCustomers] fails, [getCustomers] returns
    the empty list; it returns the same empty list when the select succeeds
    on a store without customers. *)
Theorem getCustomers_failure_is_empty_list env w e env' w' :
  store_error env = Some e →
  store_error env' = None →
  customers w' = [] →
  (getCustomers env w).1 = [] ∧
  (getCustomers env' w').1 = (getCustomers env w).1 ∧
  console (getCustomers env w).2 = (console w ++ [e])%list.
Proof.
  intros Herr Hok Hnone.
  unfold getCustomers, customers_select. run_action.
  rewrite Herr, Hok. simpl. rewrite Hnone. by repeat split.
Qed.

Lemma getCustomers_failure_is_empty_list_witness :
  store_error Sample.failing_env = Some "connection refused" ∧
  store_error Sample.env = None ∧
  customers Sample.empty_world = [] ∧
  (getCustomers Sample.failing_env Sample.world).1 = [] ∧
  (getCustomers Sample.env Sample.empty_world).1
    = (getCustomers Sample.failing_env Sample.world).1.
Proof.
  destruct (getCustomers_failure_is_empty_list Sample.failing_env Sample.world
              "connection refused" Sample.env Sample.empty_world
              eq_refl eq_refl eq_refl) as (Hempty & Hsame & _).
  split; [reflexivity|]. split; [reflexivity|]. split; [reflexivity|].
  split; [exact Hempty|exact Hsame].
Defined.

(** ** Validation *)

(** Every match of a pattern that cannot avoid [c] contains [c]. *)
Lemma nullable_avoidable c r : nullable r = true → avoidable c r = true.
Proof.
  induction r as [| | |p|r1 IH1 r2 IH2|r1 IH1 r2 IH2|r IH]; simpl; try done.
  - intros [H1 H2]%andb_true_iff. by rewrite IH1, IH2.
  - intros [H|H]%orb_true_iff; [rewrite IH1|rewrite IH2]; try done.
    apply orb_true_r.
Qed.

Lemma deriv_avoidable c a r :
  a ≠ c → avoidable c (deriv a r) = true → avoidable c r = true.
Proof.
  intros Hne.
  induction r as [| |d|p|r1 IH1 r2 IH2|r1 IH1 r2 IH2|r IH]; simpl; try done.
  - destruct (Ascii.eqb_spec a d) as [->|Hd]; simpl; [|done].
    intros _. apply negb_true_iff. by apply Ascii.eqb_neq.
  - destruct (nullable r1) eqn:Hn; simpl.
    + intros [[H1 H2]%andb_true_iff|H]%orb_true_iff.
      * by rewrite IH1, H2.
      * by rewrite (nullable_avoidable c r1 Hn), IH2.
    + intros [H1 H2]%andb_true_iff. by rewrite IH1, H2.
  - intros [H|H]%orb_true_iff; [rewrite IH1|rewrite IH2]; try done.
    apply orb_true_r.
Qed.

Lemma matches_avoidable c s :
  ∀ r, contains c s = false → matches r s = true → avoidable c r = true.
Proof.
  induction s as [|a s IH]; simpl; intros r Hc Hm.
  - by apply nullable_avoidable.
  - apply orb_false_iff in Hc as [Ha Hs].
    apply (deriv_avoidable c a); [by apply Ascii.eqb_neq|].
    by apply IH.
Qed.

(** A string that passes the email check contains the character @. *)
Lemma emailRegex_test_contains_at s :
  emailRegex_test s = true → contains "@" s = true.
Proof.
  unfold emailRegex_test. intros [_ Hm]%andb_true_iff.
  destruct (contains "@" s) eqn:Hc; [done|].
  pose proof (matches_avoidable "@" s emailBody Hc Hm) as H.
  vm_compute in H. discriminate.
Qed.

(** [js_length] on some strings: an umlaut and a Sinhala or Cyrillic letter
    are one code unit each though two or three bytes, a character beyond
    U+FFFF is two. *)
Lemma js_length_samples :
  js_length "0771" = 4 ∧ js_length "äöü" = 3 ∧ js_length "අ" = 1 ∧
  js_length "парол" = 5 ∧ js_length "пароль" = 6 ∧ js_length "😀" = 2.
Proof. by vm_compute. Qed.

(** On a string of ASCII characters it is the number of characters. *)
Lemma js_length_ascii s :
  Forall (λ b, (N_of_ascii b < 128)%N) (list_ascii_of_string s) →
  js_length s = String.length s.
Proof.
  induction s as [|b s IH]; simpl; [done|].
  intros [Hb Hs]%Forall_cons. rewrite (IH Hs).
  unfold code_units_of_byte. apply N.ltb_lt in Hb. by rewrite Hb.
Qed.

(** The parse of a single field. *)
Lemma parse_min_short (n : nat) m s :
  (js_length s < n)%nat →
  parse (ZodString [Min n m]) (Some (Text s)) =
  inl [default ("String must contain at least " ++ pretty n ++ " character(s)") m].
Proof.
  intros Hlt. cbn [parse omap check_issue list_omap].
  apply Nat.ltb_lt in Hlt. by rewrite Hlt.
Qed.

Lemma parse_min_long (n : nat) m s :
  (n ≤ js_length s)%nat →
  parse (ZodString [Min n m]) (Some (Text s)) = inr (Some s).
Proof.
  intros Hle. cbn [parse omap check_issue list_omap].
  apply Nat.ltb_ge in Hle. by rewrite Hle.
Qed.

Lemma parse_email s :
  parse (ZodString [Email]) (Some (Text s)) =
  if emailRegex_test s then inr (Some s) else inl ["Invalid email"].
Proof.
  cbn [parse omap check_issue list_omap]. by destruct (emailRegex_test s).
Qed.

Lemma parse_issues_nonempty t input msgs : parse t input = inl msgs → msgs ≠ [].
Proof.
  induction t as [checks|t IH]; simpl.
  - destruct input as [[s|f]|]; try (intros [= <-]; done).
    destruct (omap (check_issue s) checks); [done|]. by intros [= <-].
  - destruct input; [apply IH|done].
Qed.

(** A field that raises issues makes the whole object fail. *)
Lemma parse_object_issue shape input key t msgs :
  (key, t) ∈ shape → parse t (input !! key) = inl msgs →
  (parse_object shape input).1 ≠ [].
Proof.
  intros Hin Hparse.
  induction shape as [|[k t'] shape IH]; [by apply elem_of_nil in Hin|].
  cbn [parse_object].
  destruct (parse_object shape input) as [issues data] eqn:Hrest.
  apply elem_of_cons in Hin as [[= <- <-]|Hin].
  - rewrite Hparse. simpl.
    apply parse_issues_nonempty in Hparse. by destruct msgs.
  - specialize (IH Hin). simpl in IH.
    destruct (parse t' (input !! k)) as [msgs'|[v|]]; simpl; try done.
    destruct issues; [done|]. by destruct msgs'.
Qed.

Lemma safeParse_issue shape input key t msgs :
  (key, t) ∈ shape → parse t (input !! key) = inl msgs →
  ∃ issues, safeParse shape input = ParseError issues ∧ issues ≠ [].
Proof.
  intros Hin Hparse.
  pose proof (parse_object_issue shape input key t msgs Hin Hparse) as Hne.
  unfold safeParse. destruct (parse_object shape input) as [[|i issues] data].
  - done.
  - by eexists.
Qed.

Lemma safeParse_error_nonempty shape input issues :
  safeParse shape input = ParseError issues → issues ≠ [].
Proof.
  unfold safeParse. destruct (parse_object shape input) as [[|i rest] data]; [done|].
  by intros [= <-].
Qed.

(** The field errors of a non-empty list of issues are not empty. *)
Lemma fieldErrors_nonempty issues : issues ≠ [] → fieldErrors issues ≠ ∅.
Proof.
  unfold fieldErrors.
  destruct issues as [|i issues _] using rev_ind; [done|].
  intros _. rewrite foldl_app. simpl. apply insert_non_empty.
Qed.

(** What the four form actions do when validation fails. *)
Lemma login_invalid env formData w issues :
  safeParse loginSchema (fromEntries formData) = ParseError issues →
  login env formData w = (Failure "Invalid fields" None, w).
Proof. intros H. unfold login. by rewrite H. Qed.

Lemma signup_invalid env formData w issues :
  safeParse signupSchema (fromEntries formData) = ParseError issues →
  signup env formData w = (Failure "Invalid fields" None, w).
Proof. intros H. unfold signup. by rewrite H. Qed.

Lemma createCustomer_invalid env formData w issues :
  safeParse customerFormSchema (fromEntries formData) = ParseError issues →
  createCustomer env formData w =
  (Failure "Invalid fields" (Some (fieldErrors issues)), w).
Proof. intros H. unfold createCustomer. by rewrite H. Qed.

Lemma updateCustomer_invalid env customerId formData w issues :
  safeParse customerFormSchema (fromEntries formData) = ParseError issues →
  updateCustomer env customerId formData w =
  (Failure "Invalid fields" (Some (fieldErrors issues)), w).
Proof. intros H. unfold updateCustomer. by rewrite H. Qed.

Lemma fieldErrors_messages issues key msgs :
  fieldErrors issues !! key = Some msgs → msgs ≠ [].
Proof.
  unfold fieldErrors. revert key msgs.
  induction issues as [|[k m] issues IH] using rev_ind; intros key msgs.
  - simpl. by rewrite lookup_empty.
  - rewrite foldl_app. simpl. rewrite lookup_insert.
    case_decide.
    + intros [= <-]. by destruct (default [] _).
    + apply IH.
Qed.

(** Every issue shows up under its key in the field errors. *)
Lemma fieldErrors_complete issues key message :
  (key, message) ∈ issues →
  ∃ messages, fieldErrors issues !! key = Some messages ∧ message ∈ messages.
Proof.
  unfold fieldErrors.
  induction issues as [|[k m] issues IH] using rev_ind; intros Hin.
  - by apply elem_of_nil in Hin.
  - rewrite foldl_app. simpl. rewrite lookup_insert.
    apply elem_of_app in Hin as [Hin|Hin].
    + destruct (IH Hin) as (messages & Hlook & Hmem).
      case_decide as Hk.
      * subst k. rewrite Hlook. simpl. eexists. split; [done|].
        apply elem_of_app. by left.
      * by exists messages.
    + apply list_elem_of_singleton in Hin as [= -> ->].
      rewrite decide_True by done. eexists. split; [done|].
      apply elem_of_app. right. by apply list_elem_of_singleton.
Qed.

(** The validated object of a login or signup form whose two fields pass. *)
Lemma safeParse_login_success (input : gmap string FormDataEntryValue) e p :
  input !! "email" = Some (Text e) →
  input !! "password" = Some (Text p) →
  emailRegex_test e = true →
  (6 ≤ js_length p)%nat →
  safeParse loginSchema input = ParseSuccess (<["email" := e]> (<["password" := p]> ∅)).
Proof.
  intros He Hp Htest Hlen.
  unfold safeParse, loginSchema. cbn [parse_object].
  rewrite He, Hp, parse_email, Htest, parse_min_long by done.
  reflexivity.
Qed.

(** With a password that passes, the issues of a login form are all on the
    email. *)
Lemma safeParse_login_password_ok (input : gmap string FormDataEntryValue) p issues :
  input !! "password" = Some (Text p) →
  (6 ≤ js_length p)%nat →
  safeParse loginSchema input = ParseError issues →
  ∀ key message, (key, message) ∈ issues → key = "email".
Proof.
  intros Hp Hlen.
  unfold safeParse, loginSchema. cbn [parse_object].
  rewrite Hp, parse_min_long by done.
  destruct (parse (ZodString [Email]) (input !! "email")) as [msgs|[v|]]; try done.
  rewrite app_nil_r.
  destruct msgs as [|m msgs]; [done|].
  intros [= <-] key message Hin.
  apply (list_elem_of_fmap (λ m0 : string, ("email", m0)) (m :: msgs)) in Hin
    as (m' & [= -> ->] & _).
  done.
Qed.

Lemma login_valid env formData w e p :
  safeParse loginSchema (fromEntries formData)
    = ParseSuccess (<["email" := e]> (<["password" := p]> ∅)) →
  login env formData w =
  match auth_error env with
  | Some _ =>
      (Failure "Could not authenticate user" None,
       mkWorld (customers w) (measurement_sets w) (session w) (revalidated w)
               (console w) (calls w ++ [AuthSignInWithPassword e p]))
  | None =>
      (Redirect "/dashboard",
       mkWorld (customers w) (measurement_sets w) (Some (auth_identity env))
               (revalidated w) (console w) (calls w ++ [AuthSignInWithPassword e p]))
  end.
Proof.
  intros H. unfold login. rewrite H.
  rewrite lookup_insert_eq, lookup_insert_ne, lookup_insert_eq by done.
  unfold signInWithPassword. run_action.
  by destruct (auth_error env).
Qed.

Lemma signup_valid env formData w e p :
  safeParse signupSchema (fromEntries formData)
    = ParseSuccess (<["email" := e]> (<["password" := p]> ∅)) →
  calls (signup env formData w).2 =
  (calls w ++
   AuthSignUp e p (default "null" (origin env) ++ "/auth/callback")%string ::
   match auth_error env with
   | Some _ => []
   | None => [AuthSignInWithPassword e p]
   end)%list.
Proof.
  intros H. unfold signup. rewrite H.
  rewrite lookup_insert_eq, lookup_insert_ne, lookup_insert_eq by done.
  unfold signUp, signInWithPassword. run_action.
  destruct (auth_error env); simpl; [done|].
  destruct (relogin_error env); simpl; by rewrite <- app_assoc.
Qed.

(** The two ways a login or signup form is turned down. *)
Lemma login_rejects_short_password (input : gmap string FormDataEntryValue) p :
  input !! "password" = Some (Text p) →
  js_length p = 5 →
  ∃ issues, safeParse loginSchema input = ParseError issues.
Proof.
  intros Hp Hlen.
  destruct (safeParse_issue loginSchema input "password" (ZodString [Min 6 None])
              [default ("String must contain at least " ++ pretty 6 ++ " character(s)") None])
    as (issues & Hparse & _).
  - set_solver.
  - rewrite Hp. apply parse_min_short. lia.
  - by exists issues.
Qed.

Lemma login_rejects_email_without_at (input : gmap string FormDataEntryValue) e :
  input !! "email" = Some (Text e) →
  contains "@" e = false →
  ∃ issues, safeParse loginSchema input = ParseError issues.
Proof.
  intros He Hat.
  assert (emailRegex_test e = false) as Htest.
  { destruct (emailRegex_test e) eqn:Ht; [|done].
    apply emailRegex_test_contains_at in Ht. congruence. }
  destruct (safeParse_issue loginSchema input "email" (ZodString [Email]) ["Invalid email"])
    as (issues & Hparse & _).
  - set_solver.
  - by rewrite He, parse_email, Htest.
  - by exists issues.
Qed.

(** C5 (the code departs from it).  The customer form whose contact is the
    non-empty string "0771" does not pass validation: [createCustomer] and
    [updateCustomer] answer with the field error "Contact information is
    required." on [contact] and touch nothing; the schema asks for five
    characters. *)
Theorem customer_form_rejects_four_character_contact :
  fromEntries Sample.short_contact_form !! "contact" = Some (Text "0771") ∧
  String.length "0771" = 4 ∧
  safeParse customerFormSchema (fromEntries Sample.short_contact_form)
    = ParseError [("contact", "Contact information is required.")] ∧
  ∀ env customerId w,
    createCustomer env Sample.short_contact_form w =
      (Failure "Invalid fields"
         (Some {[ "contact" := ["Contact information is required."] ]}), w) ∧
    updateCustomer env customerId Sample.short_contact_form w =
      (Failure "Invalid fields"
         (Some {[ "contact" := ["Contact information is required."] ]}), w).
Proof.
  assert (safeParse customerFormSchema (fromEntries Sample.short_contact_form)
          = ParseError [("contact", "Contact information is required.")]) as Hparse
    by (vm_compute; reflexivity).
  split; [by vm_compute|]. split; [reflexivity|]. split; [exact Hparse|].
  intros env customerId w.
  rewrite (createCustomer_invalid _ _ _ _ Hparse),
          (updateCustomer_invalid _ _ _ _ _ Hparse).
  split; reflexivity.
Qed.

(** C6.  [login] and [signup] answer "Invalid fields", without any request,
    to a form whose password has length 5 and to a form whose email has no
    @.  A password of length 6 raises no issue, and with an email that
    passes the email check the form is validated and its email and password
    are the ones sent to the identity provider.  The length is the
    [.length] of the password, in UTF-16 code units. *)
Theorem login_signup_validation_boundaries env formData w :
  (∀ p, fromEntries formData !! "password" = Some (Text p) →
        js_length p = 5 →
        login env formData w = (Failure "Invalid fields" None, w) ∧
        signup env formData w = (Failure "Invalid fields" None, w)) ∧
  (∀ e, fromEntries formData !! "email" = Some (Text e) →
        contains "@" e = false →
        login env formData w = (Failure "Invalid fields" None, w) ∧
        signup env formData w = (Failure "Invalid fields" None, w)) ∧
  (∀ p issues key message,
        fromEntries formData !! "password" = Some (Text p) →
        js_length p = 6 →
        safeParse loginSchema (fromEntries formData) = ParseError issues ∨
        safeParse signupSchema (fromEntries formData) = ParseError issues →
        (key, message) ∈ issues → key = "email") ∧
  (∀ e p, fromEntries formData !! "email" = Some (Text e) →
          fromEntries formData !! "password" = Some (Text p) →
          emailRegex_test e = true →
          js_length p = 6 →
          safeParse loginSchema (fromEntries formData)
            = ParseSuccess (<["email" := e]> (<["password" := p]> ∅)) ∧
          safeParse signupSchema (fromEntries formData)
            = ParseSuccess (<["email" := e]> (<["password" := p]> ∅)) ∧
          calls (login env formData w).2
            = (calls w ++ [AuthSignInWithPassword e p])%list ∧
          ∃ later,
            calls (signup env formData w).2
              = (calls w ++
                 AuthSignUp e p (default "null" (origin env) ++ "/auth/callback")%string
                 :: later)%list).
Proof.
  split; [|split; [|split]].
  - intros p Hp Hlen.
    destruct (login_rejects_short_password _ p Hp Hlen) as [issues Hparse].
    split; [by eapply login_invalid|by eapply signup_invalid].
  - intros e He Hat.
    destruct (login_rejects_email_without_at _ e He Hat) as [issues Hparse].
    split; [by eapply login_invalid|by eapply signup_invalid].
  - intros p issues key message Hp Hlen [Hparse|Hparse] Hin;
      eapply (safeParse_login_password_ok _ p issues Hp); try done; lia.
  - intros e p He Hp Htest Hlen.
    assert (safeParse loginSchema (fromEntries formData)
            = ParseSuccess (<["email" := e]> (<["password" := p]> ∅))) as Hparse
      by (apply safeParse_login_success; try done; lia).
    split; [exact Hparse|]. split; [exact Hparse|]. split.
    + rewrite (login_valid env formData w e p Hparse). by destruct (auth_error env).
    + eexists. by apply signup_valid.
Qed.

Lemma login_signup_validation_boundaries_witness :
  login Sample.env Sample.short_password_form Sample.world
    = (Failure "Invalid fields" None, Sample.world) ∧
  signup Sample.env Sample.no_at_form Sample.world
    = (Failure "Invalid fields" None, Sample.world) ∧
  calls (login Sample.env Sample.good_login_form Sample.world).2
    = [AuthSignInWithPassword "shop@example.com" "123456"] ∧
  login Sample.env Unicode.short_password_form Sample.world
    = (Failure "Invalid fields" None, Sample.world) ∧
  calls (login Sample.env Unicode.good_login_form Sample.world).2
    = [AuthSignInWithPassword "shop@example.com" "пароль"].
Proof.
  split; [|split; [|split; [|split]]].
  - destruct (login_signup_validation_boundaries
                Sample.env Sample.short_password_form Sample.world) as (Hshort & _).
    destruct (Hshort "12345") as [Hlogin _];
      [vm_compute; reflexivity | reflexivity | exact Hlogin].
  - destruct (login_signup_validation_boundaries
                Sample.env Sample.no_at_form Sample.world) as (_ & Hat & _).
    destruct (Hat "shop.example.com") as [_ Hsignup];
      [vm_compute; reflexivity | reflexivity | exact Hsignup].
  - destruct (login_signup_validation_boundaries
                Sample.env Sample.good_login_form Sample.world) as (_ & _ & _ & Hgood).
    destruct (Hgood "shop@example.com" "123456") as (_ & _ & Hcalls & _);
      [vm_compute; reflexivity | vm_compute; reflexivity | vm_compute; reflexivity
      | reflexivity | exact Hcalls].
  - destruct (login_signup_validation_boundaries
                Sample.env Unicode.short_password_form Sample.world) as (Hshort & _).
    destruct (Hshort "парол") as [Hlogin _];
      [vm_compute; reflexivity | vm_compute; reflexivity | exact Hlogin].
  - destruct (login_signup_validation_boundaries
                Sample.env Unicode.good_login_form Sample.world) as (_ & _ & _ & Hgood).
    destruct (Hgood "shop@example.com" "пароль") as (_ & _ & Hcalls & _);
      [vm_compute; reflexivity | vm_compute; reflexivity | vm_compute; reflexivity
      | vm_compute; reflexivity | exact Hcalls].
Defined.

(** ** Validation failures *)

(** C7 as stated fails for [login]: on a form that does not pass validation
    (password of five characters) the result is the bare
    [{ error: 'Invalid fields' }], with no field-level messages. *)
Lemma login_invalid_has_no_field_messages :
  safeParse loginSchema (fromEntries Sample.short_password_form)
    = ParseError [("password", "String must contain at least 6 character(s)")] ∧
  login Sample.env Sample.short_password_form Sample.world
    = (Failure "Invalid fields" None, Sample.world) ∧
  ¬ ∃ error fields,
      (login Sample.env Sample.short_password_form Sample.world).1
        = Failure error (Some fields).
Proof.
  assert (safeParse loginSchema (fromEntries Sample.short_password_form)
          = ParseError [("password", "String must contain at least 6 character(s)")])
    as Hparse by (vm_compute; reflexivity).
  split; [exact Hparse|].
  rewrite (login_invalid _ _ _ _ Hparse).
  split; [reflexivity|]. intros (error & fields & H). discriminate H.
Qed.

(** C7 (amended).  On a form that does not pass validation, each of the
    four form actions returns the error result "Invalid fields" and leaves
    the world as it was: nothing is sent to the store or to the identity
    provider and nothing is stored, signed in, revalidated or logged.
    [createCustomer] and [updateCustomer] attach the field-level messages,
    which are not empty; [login] and [signup] attach none. *)
Theorem invalid_form_changes_nothing env customerId formData w :
  (∀ issues,
     safeParse loginSchema (fromEntries formData) = ParseError issues →
     login env formData w = (Failure "Invalid fields" None, w)) ∧
  (∀ issues,
     safeParse signupSchema (fromEntries formData) = ParseError issues →
     signup env formData w = (Failure "Invalid fields" None, w)) ∧
  (∀ issues,
     safeParse customerFormSchema (fromEntries formData) = ParseError issues →
     createCustomer env formData w
       = (Failure "Invalid fields" (Some (fieldErrors issues)), w) ∧
     updateCustomer env customerId formData w
       = (Failure "Invalid fields" (Some (fieldErrors issues)), w) ∧
     fieldErrors issues ≠ ∅ ∧
     (∀ key message, (key, message) ∈ issues →
        ∃ messages, fieldErrors issues !! key = Some messages ∧ message ∈ messages) ∧
     (∀ key messages, fieldErrors issues !! key = Some messages → messages ≠ [])).
Proof.
  split; [|split].
  - intros issues H. by eapply login_invalid.
  - intros issues H. by eapply signup_invalid.
  - intros issues H. split; [by apply createCustomer_invalid|].
    split; [by apply updateCustomer_invalid|].
    split; [apply fieldErrors_nonempty; by eapply safeParse_error_nonempty|].
    split; [apply fieldErrors_complete|apply fieldErrors_messages].
Qed.

Lemma invalid_form_changes_nothing_witness :
  signup Sample.env Sample.short_password_form Sample.world
    = (Failure "Invalid fields" None, Sample.world) ∧
  createCustomer Sample.env Sample.short_name_form Sample.world
    = (Failure "Invalid fields"
         (Some (fieldErrors [("name", "Name must be at least 2 characters.")])),
       Sample.world) ∧
  fieldErrors [("name", "Name must be at least 2 characters.")] ≠ ∅ ∧
  login Sample.env Unicode.umlaut_password_form Sample.world
    = (Failure "Invalid fields" None, Sample.world) ∧
  updateCustomer Sample.env "cust-1" Unicode.short_name_form Sample.world
    = (Failure "Invalid fields"
         (Some (fieldErrors [("name", "Name must be at least 2 characters.")])),
       Sample.world).
Proof.
  split; [|split; [|split; [|split]]].
  - destruct (invalid_form_changes_nothing Sample.env "cust-1"
                Sample.short_password_form Sample.world) as (_ & Hsignup & _).
    apply (Hsignup [("password", "String must contain at least 6 character(s)")]).
    vm_compute; reflexivity.
  - destruct (invalid_form_changes_nothing Sample.env "cust-1"
                Sample.short_name_form Sample.world) as (_ & _ & Hcustomer).
    destruct (Hcustomer [("name", "Name must be at least 2 characters.")])
      as (Hcreate & _); [vm_compute; reflexivity | exact Hcreate].
  - destruct (invalid_form_changes_nothing Sample.env "cust-1"
                Sample.short_name_form Sample.world) as (_ & _ & Hcustomer).
    destruct (Hcustomer [("name", "Name must be at least 2 characters.")])
      as (_ & _ & Hne & _); [vm_compute; reflexivity | exact Hne].
  - destruct (invalid_form_changes_nothing Sample.env "cust-1"
                Unicode.umlaut_password_form Sample.world) as (Hlogin & _).
    apply (Hlogin [("password", "String must contain at least 6 character(s)")]).
    vm_compute; reflexivity.
  - destruct (invalid_form_changes_nothing Sample.env "cust-1"
                Unicode.short_name_form Sample.world) as (_ & _ & Hcustomer).
    destruct (Hcustomer [("name", "Name must be at least 2 characters.")])
      as (_ & Hupdate & _); [vm_compute; reflexivity | exact Hupdate].
Defined.

(** * Further properties of the server actions *)

(** ** Unfolding the remaining handlers *)

Lemma getUser_run w :
  getUser w =
  (session w,
   mkWorld (customers w) (measurement_sets w) (session w) (revalidated w)
           (console w) (calls w ++ [AuthGetUser])).
Proof. reflexivity. Qed.

Lemma DashboardLayout_run children w :
  DashboardLayout children w =
  (match session w with
   | None => Redirected "/login"
   | Some _ => Rendered (Dashboard children)
   end,
   mkWorld (customers w) (measurement_sets w) (session w) (revalidated w)
           (console w) (calls w ++ [AuthGetUser])).
Proof. unfold DashboardLayout, getUser. run_action. by destruct (session w). Qed.

Lemma LoginPage_run w :
  LoginPage w =
  (match session w with
   | Some _ => Redirected "/dashboard"
   | None => Rendered LoginForm
   end,
   mkWorld (customers w) (measurement_sets w) (session w) (revalidated w)
           (console w) (calls w ++ [AuthGetUser])).
Proof. unfold LoginPage, getUser. run_action. by destruct (session w). Qed.

Lemma logout_run response w :
  logout response w =
  (Redirect "/login",
   mkWorld (customers w) (measurement_sets w)
           (match response with Some _ => session w | None => None end)
           (revalidated w) (console w) (calls w)).
Proof. unfold logout, signOut. run_action. destruct response, w; reflexivity. Qed.

Lemma deleteCustomer_run env customerId w :
  deleteCustomer env customerId w =
  match store_error env with
  | Some _ => (Failure "Failed to delete customer." None, w)
  | None =>
      (Redirect "/dashboard",
       mkWorld (filter (λ c, CustomerRow.id c ≠ customerId) (customers w))
               (filter (λ ms, MeasurementSetRow.customer_id ms ≠ customerId)
                       (measurement_sets w))
               (session w) (revalidated w ++ ["/dashboard"]) (console w) (calls w))
  end.
Proof.
  unfold deleteCustomer, customers_delete. run_action.
  destruct (store_error env); reflexivity.
Qed.

Lemma getCustomerById_run env not_single id w :
  getCustomerById env not_single id w =
  match store_error env with
  | Some e =>
      (None,
       mkWorld (customers w) (measurement_sets w) (session w) (revalidated w)
               (console w ++ [e]) (calls w))
  | None =>
      match filter (λ c, CustomerRow.id c = id) (customers w) with
      | [c] =>
          (Some (CustomerDetail.mk
                   (CustomerRow.id c) (CustomerRow.created_at c) (CustomerRow.name c)
                   (CustomerRow.nic c) (CustomerRow.contact c)
                   (or_empty (CustomerRow.order_history c))
                   (or_empty (CustomerRow.preferences c))
                   (set_of_row <$>
                    filter (λ ms, MeasurementSetRow.customer_id ms = CustomerRow.id c)
                           (measurement_sets w))),
           w)
      | _ =>
          (None,
           mkWorld (customers w) (measurement_sets w) (session w) (revalidated w)
                   (console w ++ [not_single]) (calls w))
      end
  end.
Proof.
  unfold getCustomerById, customers_select_single. run_action.
  destruct (store_error env); [reflexivity|].
  destruct (filter _ (customers w)) as [|c [|c' rest]]; reflexivity.
Qed.

Lemma signup_run env formData w e p :
  safeParse signupSchema (fromEntries formData)
    = ParseSuccess (<["email" := e]> (<["password" := p]> ∅)) →
  signup env formData w =
  let sent := AuthSignUp e p (default "null" (origin env) ++ "/auth/callback")%string in
  match auth_error env with
  | Some _ =>
      (Failure "Could not authenticate user" None,
       mkWorld (customers w) (measurement_sets w) (session w) (revalidated w)
               (console w) (calls w ++ [sent]))
  | None =>
      (Redirect "/dashboard",
       mkWorld (customers w) (measurement_sets w)
               (match relogin_error env with
                | Some _ => session w
                | None => Some (auth_identity env)
                end)
               (revalidated w) (console w)
               ((calls w ++ [sent]) ++ [AuthSignInWithPassword e p]))
  end.
Proof.
  intros H. unfold signup. rewrite H.
  rewrite lookup_insert_eq, lookup_insert_ne, lookup_insert_eq by done.
  unfold signUp, signInWithPassword. run_action.
  destruct (auth_error env); simpl; [done|].
  by destruct (relogin_error env).
Qed.

(** ** The two pages *)

(** X1.  The two pages never send a visitor round in circles: when
    [DashboardLayout] redirects, the [LoginPage] that is requested next
    renders its form, and when [LoginPage] redirects, the [DashboardLayout]
    that is requested next renders the dashboard; whatever the session, one
    of the two pages renders and the other redirects. *)
Theorem pages_do_not_redirect_in_circles children w :
  ((DashboardLayout children w).1 = Redirected "/login" →
   (LoginPage (DashboardLayout children w).2).1 = Rendered LoginForm) ∧
  ((LoginPage w).1 = Redirected "/dashboard" →
   (DashboardLayout children (LoginPage w).2).1 = Rendered (Dashboard children)) ∧
  ((DashboardLayout children w).1 = Rendered (Dashboard children) ∧
   (LoginPage w).1 = Redirected "/dashboard" ∨
   (DashboardLayout children w).1 = Redirected "/login" ∧
   (LoginPage w).1 = Rendered LoginForm).
Proof.
  rewrite !DashboardLayout_run, !LoginPage_run. simpl.
  destruct (session w); simpl; split; try split; try done; auto.
Qed.

Lemma pages_do_not_redirect_in_circles_witness :
  (LoginPage (DashboardLayout "customers" Shop.signed_out).2).1 = Rendered LoginForm ∧
  (DashboardLayout "customers" (LoginPage Shop.world).2).1
    = Rendered (Dashboard "customers").
Proof.
  destruct (pages_do_not_redirect_in_circles "customers" Shop.signed_out) as (Hout & _).
  destruct (pages_do_not_redirect_in_circles "customers" Shop.world) as (_ & Hin & _).
  split; [apply Hout|apply Hin]; reflexivity.
Defined.

Lemma createCustomer_run env formData w data :
  safeParse customerFormSchema (fromEntries formData) = ParseSuccess data →
  createCustomer env formData w =
  match session w with
  | None =>
      (Failure "You must be logged in to create a customer." None,
       mkWorld (customers w) (measurement_sets w) (session w) (revalidated w)
               (console w) (calls w ++ [AuthGetUser]))
  | Some user_id =>
      let payload := <["user_id" := user_id]> data in
      match store_error env with
      | Some _ =>
          (Failure "Failed to create customer." None,
           mkWorld (customers w) (measurement_sets w) (session w) (revalidated w)
                   (console w) ((calls w ++ [AuthGetUser]) ++ [CustomersInsert payload]))
      | None =>
          (Redirect ("/dashboard/customer/" ++ store_new_id env),
           mkWorld (customers w ++
                    [customer_of_payload (store_new_id env) (store_created_at env) payload])
                   (measurement_sets w) (session w) (revalidated w ++ ["/dashboard"])
                   (console w) ((calls w ++ [AuthGetUser]) ++ [CustomersInsert payload]))
      end
  end.
Proof.
  intros H. unfold createCustomer. rewrite H.
  unfold getUser, customers_insert. run_action.
  destruct (session w); [|reflexivity].
  destruct (store_error env); reflexivity.
Qed.

Lemma updateCustomer_run env customerId formData w data :
  safeParse customerFormSchema (fromEntries formData) = ParseSuccess data →
  updateCustomer env customerId formData w =
  match store_error env with
  | Some _ =>
      (Failure "Failed to update customer." None,
       mkWorld (customers w) (measurement_sets w) (session w) (revalidated w)
               (console w) (calls w ++ [CustomersUpdate data customerId]))
  | None =>
      (Success,
       mkWorld ((λ r, if String.eqb (CustomerRow.id r) customerId
                      then patch_customer data r else r) <$> customers w)
               (measurement_sets w) (session w)
               ((revalidated w ++ ["/dashboard"]) ++ ["/dashboard/customer/" ++ customerId])
               (console w) (calls w ++ [CustomersUpdate data customerId]))
  end.
Proof.
  intros H. unfold updateCustomer. rewrite H.
  unfold customers_update. run_action.
  destruct (store_error env); reflexivity.
Qed.

(** A form is validated or it is not. *)
Lemma safeParse_cases shape input :
  (∃ data, safeParse shape input = ParseSuccess data) ∨
  (∃ issues, safeParse shape input = ParseError issues).
Proof. destruct (safeParse shape input); eauto. Qed.

(** Without a session [createCustomer] stores nothing and fails. *)
Lemma createCustomer_signed_out env formData w :
  session w = None →
  customers (createCustomer env formData w).2 = customers w ∧
  measurement_sets (createCustomer env formData w).2 = measurement_sets w ∧
  revalidated (createCustomer env formData w).2 = revalidated w ∧
  ∃ error fields, (createCustomer env formData w).1 = Failure error fields.
Proof.
  intros Hout.
  destruct (safeParse_cases customerFormSchema (fromEntries formData))
    as [[data H]|[issues H]].
  - rewrite (createCustomer_run _ _ _ _ H), Hout. simpl. eauto 10.
  - rewrite (createCustomer_invalid _ _ _ _ H). simpl. eauto 10.
Qed.

(** ** Signing in, up and out *)

(** X2.  For a form that passes validation, [login] sends the form's email
    and password; if the provider accepts them the result is the redirect
    to the dashboard, the session is the provider's identity and the
    dashboard then renders; if it refuses, the result is "Could not
    authenticate user" and the session is as before.  Neither table and no
    cache path is touched. *)
Theorem login_outcomes env formData w e p children :
  fromEntries formData !! "email" = Some (Text e) →
  fromEntries formData !! "password" = Some (Text p) →
  emailRegex_test e = true →
  (6 ≤ js_length p)%nat →
  let w' := (login env formData w).2 in
  match auth_error env with
  | None =>
      (login env formData w).1 = Redirect "/dashboard" ∧
      session w' = Some (auth_identity env) ∧
      (DashboardLayout children w').1 = Rendered (Dashboard children)
  | Some _ =>
      (login env formData w).1 = Failure "Could not authenticate user" None ∧
      session w' = session w ∧
      (DashboardLayout children w').1 = (DashboardLayout children w).1
  end ∧
  calls w' = (calls w ++ [AuthSignInWithPassword e p])%list ∧
  customers w' = customers w ∧
  measurement_sets w' = measurement_sets w ∧
  revalidated w' = revalidated w.
Proof.
  intros He Hp Htest Hlen w'. subst w'.
  rewrite (login_valid env formData w e p
             (safeParse_login_success _ e p He Hp Htest Hlen)).
  rewrite !DashboardLayout_run.
  destruct (auth_error env); simpl; by repeat split.
Qed.

Lemma login_outcomes_witness :
  (DashboardLayout "customers" Shop.signed_out).1 = Redirected "/login" ∧
  (login Sample.env Sample.good_login_form Shop.signed_out).1 = Redirect "/dashboard" ∧
  (DashboardLayout "customers"
     (login Sample.env Sample.good_login_form Shop.signed_out).2).1
    = Rendered (Dashboard "customers") ∧
  (login Shop.refusing_env Sample.good_login_form Shop.signed_out).1
    = Failure "Could not authenticate user" None ∧
  session (login Shop.refusing_env Sample.good_login_form Shop.signed_out).2 = None.
Proof.
  destruct (login_outcomes Sample.env Sample.good_login_form Shop.signed_out
              "shop@example.com" "123456" "customers")
    as ((Hres & _ & Hdash) & _);
    [vm_compute; reflexivity | vm_compute; reflexivity | vm_compute; reflexivity
    | vm_compute; lia |].
  destruct (login_outcomes Shop.refusing_env Sample.good_login_form Shop.signed_out
              "shop@example.com" "123456" "customers")
    as ((Hres' & Hsess' & _) & _);
    [vm_compute; reflexivity | vm_compute; reflexivity | vm_compute; reflexivity
    | vm_compute; lia |].
  split; [reflexivity|]. split; [exact Hres|]. split; [exact Hdash|].
  split; [exact Hres'|exact Hsess'].
Defined.

(** X3.  For a form that passes validation, [signup] sends the sign-up with
    the callback address built from the origin.  If the provider refuses,
    the result is "Could not authenticate user" and no sign-in is sent.  If
    it accepts, a sign-in with the same credentials follows and the result
    is the redirect to the dashboard whatever the sign-in answers: when that
    sign-in fails the session is as before, so a visitor without a session
    is sent on to a dashboard that redirects to the login page. *)
Theorem signup_outcomes env formData w e p children :
  fromEntries formData !! "email" = Some (Text e) →
  fromEntries formData !! "password" = Some (Text p) →
  emailRegex_test e = true →
  (6 ≤ js_length p)%nat →
  let w' := (signup env formData w).2 in
  let sent := AuthSignUp e p (default "null" (origin env) ++ "/auth/callback")%string in
  match auth_error env with
  | Some _ =>
      (signup env formData w).1 = Failure "Could not authenticate user" None ∧
      calls w' = (calls w ++ [sent])%list ∧
      session w' = session w
  | None =>
      (signup env formData w).1 = Redirect "/dashboard" ∧
      calls w' = (calls w ++ [sent; AuthSignInWithPassword e p])%list ∧
      match relogin_error env with
      | None => session w' = Some (auth_identity env)
      | Some _ =>
          session w' = session w ∧
          (session w = None →
           (DashboardLayout children w').1 = Redirected "/login")
      end
  end ∧
  customers w' = customers w ∧
  measurement_sets w' = measurement_sets w ∧
  revalidated w' = revalidated w.
Proof.
  intros He Hp Htest Hlen w' sent. subst w' sent.
  rewrite (signup_run env formData w e p
             (safeParse_login_success _ e p He Hp Htest Hlen)).
  rewrite !DashboardLayout_run.
  destruct (auth_error env); simpl; [by repeat split|].
  rewrite <- app_assoc. simpl.
  destruct (relogin_error env); simpl; repeat split; try done.
  by intros ->.
Qed.

Lemma signup_outcomes_witness :
  (signup Shop.unconfirmed_env Sample.good_login_form Shop.signed_out).1
    = Redirect "/dashboard" ∧
  (DashboardLayout "customers"
     (signup Shop.unconfirmed_env Sample.good_login_form Shop.signed_out).2).1
    = Redirected "/login" ∧
  calls (signup Shop.refusing_env Sample.good_login_form Shop.signed_out).2
    = [AuthSignUp "shop@example.com" "123456" "null/auth/callback"].
Proof.
  destruct (signup_outcomes Shop.unconfirmed_env Sample.good_login_form Shop.signed_out
              "shop@example.com" "123456" "customers")
    as ((Hres & _ & _ & Hdash) & _);
    [vm_compute; reflexivity | vm_compute; reflexivity | vm_compute; reflexivity
    | vm_compute; lia |].
  destruct (signup_outcomes Shop.refusing_env Sample.good_login_form Shop.signed_out
              "shop@example.com" "123456" "customers")
    as ((_ & Hcalls & _) & _);
    [vm_compute; reflexivity | vm_compute; reflexivity | vm_compute; reflexivity
    | vm_compute; lia |].
  split; [exact Hres|]. split; [exact (Hdash eq_refl)|exact Hcalls].
Defined.

(** X4.  [logout] always answers with the redirect to the login page and
    touches neither table.  When the provider accepts the sign-out the
    session is gone: the dashboard redirects to the login page, the login
    page renders, and [createCustomer] then fails and stores nothing
    whatever the form.  When the provider refuses, the session stays. *)
Theorem logout_outcomes response w children env formData :
  let w' := (logout response w).2 in
  (logout response w).1 = Redirect "/login" ∧
  customers w' = customers w ∧
  measurement_sets w' = measurement_sets w ∧
  (response = None →
   session w' = None ∧
   (DashboardLayout children w').1 = Redirected "/login" ∧
   (LoginPage w').1 = Rendered LoginForm ∧
   customers (createCustomer env formData w').2 = customers w ∧
   ∃ error fields, (createCustomer env formData w').1 = Failure error fields) ∧
  (response ≠ None → session w' = session w).
Proof.
  intros w'. subst w'. rewrite logout_run. simpl.
  split; [done|]. split; [done|]. split; [done|]. split.
  - intros ->. rewrite DashboardLayout_run, LoginPage_run. simpl.
    split; [done|]. split; [done|]. split; [done|].
    match goal with
    | |- context [createCustomer env formData ?w1] =>
        destruct (createCustomer_signed_out env formData w1 eq_refl)
          as (Hc & _ & _ & Hfail)
    end.
    split; [exact Hc|exact Hfail].
  - by destruct response.
Qed.

Lemma logout_outcomes_witness :
  session (logout None Shop.world).2 = None ∧
  (DashboardLayout "customers" (logout None Shop.world).2).1 = Redirected "/login" ∧
  customers (createCustomer Sample.env Shop.customer_form (logout None Shop.world).2).2
    = customers Shop.world ∧
  session (logout (Some "network") Shop.world).2 = Some "user-1".
Proof.
  destruct (logout_outcomes None Shop.world "customers" Sample.env Shop.customer_form)
    as (_ & _ & _ & Hgone & _).
  destruct (Hgone eq_refl) as (Hs & Hd & _ & Hc & _).
  destruct (logout_outcomes (Some "network") Shop.world "customers" Sample.env
              Shop.customer_form) as (_ & _ & _ & _ & Hstay).
  split; [exact Hs|]. split; [exact Hd|]. split; [exact Hc|].
  apply Hstay. discriminate.
Defined.

(** ** Validation, field by field *)

(** A parsed value is the text of the entry. *)
Lemma parse_value t input s : parse t input = inr (Some s) → input = Some (Text s).
Proof.
  induction t as [checks|t IH]; simpl.
  - destruct input as [[s'|f]|]; try done.
    destruct (omap (check_issue s') checks); [|done]. by intros [= ->].
  - destruct input; [apply IH|done].
Qed.

Lemma parse_object_lookup shape input key s :
  (parse_object shape input).2 !! key = Some s →
  key ∈ shape.*1 ∧ input !! key = Some (Text s).
Proof.
  induction shape as [|[k t] shape IH]; cbn [parse_object].
  - simpl. by rewrite lookup_empty.
  - destruct (parse_object shape input) as [issues data]. simpl in IH.
    destruct (parse t (input !! k)) as [msgs|[v|]] eqn:Hparse; simpl;
      try (intros H; destruct (IH H); split; [by apply elem_of_cons; right|done]).
    rewrite lookup_insert. case_decide as Hk.
    + subst k. intros [= <-]. split; [by apply elem_of_cons; left|].
      by apply parse_value in Hparse.
    + intros H. destruct (IH H). split; [by apply elem_of_cons; right|done].
Qed.

Lemma safeParse_data shape input data :
  safeParse shape input = ParseSuccess data → data = (parse_object shape input).2.
Proof.
  unfold safeParse. destruct (parse_object shape input) as [[|i rest] d]; [|done].
  by intros [= <-].
Qed.

(** A form passes exactly when each key of the shape parses. *)
Lemma parse_object_no_issue shape input :
  (parse_object shape input).1 = [] ↔
  Forall (λ kt, ∃ v, parse kt.2 (input !! kt.1) = inr v) shape.
Proof.
  induction shape as [|[k t] shape IH]; cbn [parse_object].
  - split; [constructor|done].
  - destruct (parse_object shape input) as [issues data]. simpl in IH.
    rewrite Forall_cons. simpl.
    destruct (parse t (input !! k)) as [msgs|[v|]] eqn:Hparse; simpl.
    + apply parse_issues_nonempty in Hparse. split.
      * by destruct msgs.
      * by intros [[v [=]] _].
    + rewrite IH. split; [eauto|tauto].
    + rewrite IH. split; [eauto|tauto].
Qed.

Lemma safeParse_success shape input :
  (∃ data, safeParse shape input = ParseSuccess data) ↔
  Forall (λ kt, ∃ v, parse kt.2 (input !! kt.1) = inr v) shape.
Proof.
  rewrite <- parse_object_no_issue. unfold safeParse.
  destruct (parse_object shape input) as [[|i rest] data]; simpl.
  - split; eauto.
  - split; [by intros [d [=]]|done].
Qed.

Lemma parse_min_accepts (n : nat) m input :
  (∃ v, parse (ZodString [Min n m]) input = inr v) ↔
  ∃ s, input = Some (Text s) ∧ (n ≤ js_length s)%nat.
Proof.
  split.
  - intros [v H]. destruct input as [[s|f]|]; try done.
    exists s. split; [done|].
    destruct (Nat.le_gt_cases n (js_length s)) as [|Hlt]; [done|].
    by rewrite (parse_min_short n m s Hlt) in H.
  - intros (s & -> & Hle). rewrite parse_min_long by done. eauto.
Qed.

Lemma parse_email_accepts input :
  (∃ v, parse (ZodString [Email]) input = inr v) ↔
  ∃ s, input = Some (Text s) ∧ emailRegex_test s = true.
Proof.
  split.
  - intros [v H]. destruct input as [[s|f]|]; try done.
    exists s. split; [done|]. rewrite parse_email in H.
    by destruct (emailRegex_test s).
  - intros (s & -> & Htest). rewrite parse_email, Htest. eauto.
Qed.

Lemma parse_optional_accepts input :
  (∃ v, parse (ZodOptional (ZodString [])) input = inr v) ↔
  ∀ f, input ≠ Some (File f).
Proof.
  split.
  - intros [v H] f ->. done.
  - intros H. destruct input as [[s|f]|]; simpl; eauto. by destruct (H f).
Qed.

(** A customer form with the three required fields long enough passes. *)
Lemma safeParse_customer_form_accepts (input : gmap string FormDataEntryValue)
    name nic contact :
  input !! "name" = Some (Text name) →
  input !! "nic" = Some (Text nic) →
  input !! "contact" = Some (Text contact) →
  (2 ≤ js_length name)%nat →
  (5 ≤ js_length nic)%nat →
  (5 ≤ js_length contact)%nat →
  (∀ f, input !! "orderHistory" ≠ Some (File f)) →
  (∀ f, input !! "preferences" ≠ Some (File f)) →
  ∃ data, safeParse customerFormSchema input = ParseSuccess data.
Proof.
  intros Hn Hi Hc Hln Hli Hlc Ho Hp.
  apply safeParse_success. unfold customerFormSchema.
  repeat apply Forall_cons_2; cbn [fst snd]; try apply Forall_nil_2.
  - apply parse_min_accepts. by exists name.
  - apply parse_min_accepts. by exists nic.
  - apply parse_min_accepts. by exists contact.
  - by apply parse_optional_accepts.
  - by apply parse_optional_accepts.
Qed.

(** X5.  The customer form passes validation exactly when [name], [nic] and
    [contact] are text of at least 2, 5 and 5 UTF-16 code units (their
    [.length]) and neither [orderHistory] nor [preferences] is a file; a
    missing [orderHistory] or [preferences] is accepted, a missing [name],
    [nic] or [contact] is not. *)
Theorem customer_form_validation (input : gmap string FormDataEntryValue) :
  (∃ data, safeParse customerFormSchema input = ParseSuccess data) ↔
  (∃ name nic contact,
     input !! "name" = Some (Text name) ∧
     input !! "nic" = Some (Text nic) ∧
     input !! "contact" = Some (Text contact) ∧
     (2 ≤ js_length name)%nat ∧
     (5 ≤ js_length nic)%nat ∧
     (5 ≤ js_length contact)%nat) ∧
  (∀ f, input !! "orderHistory" ≠ Some (File f)) ∧
  (∀ f, input !! "preferences" ≠ Some (File f)).
Proof.
  rewrite safeParse_success. unfold customerFormSchema.
  rewrite !Forall_cons, Forall_nil. cbn [fst snd].
  rewrite !parse_min_accepts, !parse_optional_accepts.
  split.
  - intros ((name & Hn & Hln) & (nic & Hi & Hli) & (contact & Hc & Hlc) & Ho & Hp & _).
    split; [|done]. by exists name, nic, contact.
  - intros ((name & nic & contact & Hn & Hi & Hc & Hln & Hli & Hlc) & Ho & Hp).
    split; [by exists name|]. split; [by exists nic|]. split; [by exists contact|].
    done.
Qed.

Lemma customer_form_validation_witness :
  (∃ data, safeParse customerFormSchema (fromEntries Unicode.customer_form)
           = ParseSuccess data) ∧
  ¬ (∃ data, safeParse customerFormSchema (fromEntries Unicode.short_name_form)
             = ParseSuccess data).
Proof.
  split.
  - apply (customer_form_validation (fromEntries Unicode.customer_form)).
    split; [|split; intros f; vm_compute; discriminate].
    exists "අජ", "12345", "0771234567".
    repeat split; try (vm_compute; reflexivity); vm_compute; lia.
  - intros H.
    apply (customer_form_validation (fromEntries Unicode.short_name_form)) in H
      as ((name & nic & contact & Hn & _ & _ & Hlen & _) & _).
    vm_compute in Hn. injection Hn as <-. vm_compute in Hlen. lia.
Defined.

(** X6.  The login and the signup form pass validation exactly when
    [email] is text that passes the email check and [password] is text of at
    least 6 UTF-16 code units (its [.length]); other entries of the form
    play no part. *)
Theorem login_form_validation (input : gmap string FormDataEntryValue) :
  ((∃ data, safeParse loginSchema input = ParseSuccess data) ↔
   ∃ e p, input !! "email" = Some (Text e) ∧ input !! "password" = Some (Text p) ∧
          emailRegex_test e = true ∧ (6 ≤ js_length p)%nat) ∧
  ((∃ data, safeParse signupSchema input = ParseSuccess data) ↔
   ∃ e p, input !! "email" = Some (Text e) ∧ input !! "password" = Some (Text p) ∧
          emailRegex_test e = true ∧ (6 ≤ js_length p)%nat).
Proof.
  rewrite !safeParse_success. unfold loginSchema, signupSchema.
  rewrite !Forall_cons, Forall_nil. cbn [fst snd].
  rewrite !parse_min_accepts, !parse_email_accepts.
  split; (split;
    [ intros ((e & He & Ht) & (p & Hp & Hl) & _); by exists e, p
    | intros (e & p & He & Hp & Ht & Hl);
      split; [by exists e|]; split; [by exists p|done] ]).
Qed.

Lemma login_form_validation_witness :
  (∃ data, safeParse loginSchema (fromEntries Unicode.good_login_form)
           = ParseSuccess data) ∧
  ¬ (∃ data, safeParse signupSchema (fromEntries Unicode.umlaut_password_form)
             = ParseSuccess data).
Proof.
  destruct (login_form_validation (fromEntries Unicode.good_login_form)) as [[_ Hgood] _].
  destruct (login_form_validation (fromEntries Unicode.umlaut_password_form))
    as [_ [Hshort _]].
  split.
  - apply Hgood. exists "shop@example.com", "пароль".
    repeat split; try (vm_compute; reflexivity); vm_compute; lia.
  - intros H. apply Hshort in H as (e & p & _ & Hp & _ & Hlen).
    vm_compute in Hp. injection Hp as <-. vm_compute in Hlen. lia.
Defined.

(** ** What reaches the store from a customer form *)

Lemma parse_text t s v : parse t (Some (Text s)) = inr v → v = Some s.
Proof.
  induction t as [checks|t IH]; simpl.
  - destruct (omap (check_issue s) checks); [|done]. by intros [= <-].
  - apply IH.
Qed.

Lemma parse_object_lookup_text shape input key s :
  NoDup shape.*1 →
  key ∈ shape.*1 →
  input !! key = Some (Text s) →
  (parse_object shape input).1 = [] →
  (parse_object shape input).2 !! key = Some s.
Proof.
  intros Hnd Hin Hkey.
  induction shape as [|[k t] shape IH]; [by apply elem_of_nil in Hin|].
  cbn [parse_object].
  destruct (parse_object shape input) as [issues data]. simpl in IH.
  rewrite fmap_cons in Hnd, Hin. simpl in Hnd, Hin.
  apply NoDup_cons in Hnd as [Hnotin Hnd].
  apply elem_of_cons in Hin as [->|Hin].
  - rewrite Hkey.
    destruct (parse t (Some (Text s))) as [msgs|v] eqn:Hparse; simpl.
    + apply parse_issues_nonempty in Hparse. by destruct msgs.
    + apply parse_text in Hparse as ->. intros _. apply lookup_insert_eq.
  - assert (k ≠ key) as Hne by (intros ->; done).
    destruct (parse t (input !! k)) as [msgs|[v|]] eqn:Hparse; simpl.
    + apply parse_issues_nonempty in Hparse. by destruct msgs.
    + intros Hnil. rewrite lookup_insert_ne by done. by apply IH.
    + intros Hnil. by apply IH.
Qed.

(** The validated object is the text entries of the form under the keys of
    the schema. *)
Lemma safeParse_lookup shape input data key s :
  NoDup shape.*1 →
  safeParse shape input = ParseSuccess data →
  data !! key = Some s ↔ key ∈ shape.*1 ∧ input !! key = Some (Text s).
Proof.
  intros Hnd Hparse.
  pose proof (safeParse_data _ _ _ Hparse) as ->.
  split; [apply parse_object_lookup|].
  intros [Hin Hkey]. apply parse_object_lookup_text; try done.
  unfold safeParse in Hparse.
  by destruct (parse_object shape input) as [[|i rest] d].
Qed.

Lemma customerFormKeys_NoDup : NoDup customerFormKeys.
Proof. apply (bool_decide_unpack (NoDup customerFormKeys)). by vm_compute. Qed.

(** X7.  What [createCustomer] and [updateCustomer] send to the store is
    the validated form: each key of the insert or update object other than
    [user_id] is a key of the schema and carries the text of the form's
    entry, so entries such as [id], [user_id] or [created_at] of a form
    never reach the store; the [user_id] of an insert is the signed-in
    identity, and the update is sent for the [customerId] argument. *)
Theorem customer_payload_is_the_validated_form env customerId formData w payload id :
  (CustomersInsert payload ∈ calls (createCustomer env formData w).2 →
   CustomersInsert payload ∉ calls w →
   payload !! "user_id" = session w ∧
   is_Some (session w) ∧
   ∀ key s, key ≠ "user_id" → payload !! key = Some s →
            key ∈ customerFormKeys ∧ fromEntries formData !! key = Some (Text s)) ∧
  (CustomersUpdate payload id ∈ calls (updateCustomer env customerId formData w).2 →
   CustomersUpdate payload id ∉ calls w →
   id = customerId ∧
   ∀ key s, payload !! key = Some s →
            key ∈ customerFormKeys ∧ fromEntries formData !! key = Some (Text s)).
Proof.
  destruct (safeParse_cases customerFormSchema (fromEntries formData))
    as [[data H]|[issues H]].
  - rewrite (createCustomer_run _ _ _ _ H), (updateCustomer_run _ _ _ _ _ H).
    split.
    + intros Hin Hnew.
      destruct (session w) as [user|] eqn:Hs; simpl in Hin.
      * assert (payload = <["user_id" := user]> data) as ->.
        { destruct (store_error env); simpl in Hin;
            apply elem_of_app in Hin as [Hin|Hin%list_elem_of_singleton];
            try congruence;
            apply elem_of_app in Hin as [Hin|Hin%list_elem_of_singleton];
            done. }
        split; [apply lookup_insert_eq|]. split; [eauto|].
        intros key s Hne. rewrite lookup_insert_ne by done.
        apply safeParse_lookup; [apply customerFormKeys_NoDup|done].
      * apply elem_of_app in Hin as [Hin|Hin%list_elem_of_singleton]; done.
    + intros Hin Hnew.
      assert (payload = data ∧ id = customerId) as [-> ->].
      { destruct (store_error env); simpl in Hin;
          apply elem_of_app in Hin as [Hin|Hin%list_elem_of_singleton];
          try done; by injection Hin. }
      split; [done|]. intros key s.
      apply safeParse_lookup; [apply customerFormKeys_NoDup|done].
  - rewrite (createCustomer_invalid _ _ _ _ H), (updateCustomer_invalid _ _ _ _ _ H).
    simpl. split; done.
Qed.

Lemma customer_payload_is_the_validated_form_witness :
  let payload :=
    <["user_id" := "user-1"]>
      (parse_object customerFormSchema (fromEntries Shop.customer_form)).2 in
  CustomersInsert payload ∈ calls (createCustomer Sample.env Shop.customer_form Shop.world).2 ∧
  payload !! "user_id" = Some "user-1" ∧
  payload !! "id" = None.
Proof.
  intros payload.
  assert (CustomersInsert payload
          ∈ calls (createCustomer Sample.env Shop.customer_form Shop.world).2) as Hin
    by (apply (list_elem_of_lookup_2 _ 1); vm_compute; reflexivity).
  destruct (customer_payload_is_the_validated_form Sample.env "cust-1"
              Shop.customer_form Shop.world payload "cust-1") as [Hcreate _].
  destruct (Hcreate Hin) as (Huser & _ & Hkeys).
  { apply not_elem_of_nil. }
  split; [exact Hin|]. split; [exact Huser|].
  destruct (payload !! "id") as [s|] eqn:Hid; [|reflexivity].
  destruct (Hkeys "id" s) as [Hkey _]; [discriminate|exact Hid|].
  exfalso. revert Hkey. vm_compute. set_solver.
Defined.

(** ** Creating, updating and deleting a customer *)

Lemma customer_data_lookup (input : gmap string FormDataEntryValue) data key s :
  safeParse customerFormSchema input = ParseSuccess data →
  key ∈ customerFormKeys →
  input !! key = Some (Text s) →
  data !! key = Some s.
Proof.
  intros Hparse Hin Hkey.
  by apply (safeParse_lookup customerFormSchema input data key s
              customerFormKeys_NoDup Hparse).
Qed.

(** X8.  With a signed-in user, a form that passes validation and a store
    that accepts the insert, [createCustomer] adds exactly one customer,
    with the name, NIC and contact of the form, owned by the signed-in
    user; it revalidates the dashboard and redirects to the detail page of
    the id the store returned.  The measurement sets are untouched. *)
Theorem createCustomer_stores_the_form env formData w name nic contact user :
  fromEntries formData !! "name" = Some (Text name) →
  fromEntries formData !! "nic" = Some (Text nic) →
  fromEntries formData !! "contact" = Some (Text contact) →
  (2 ≤ js_length name)%nat →
  (5 ≤ js_length nic)%nat →
  (5 ≤ js_length contact)%nat →
  (∀ f, fromEntries formData !! "orderHistory" ≠ Some (File f)) →
  (∀ f, fromEntries formData !! "preferences" ≠ Some (File f)) →
  session w = Some user →
  store_error env = None →
  let w' := (createCustomer env formData w).2 in
  ∃ row,
    (createCustomer env formData w).1
      = Redirect ("/dashboard/customer/" ++ store_new_id env) ∧
    customers w' = (customers w ++ [row])%list ∧
    CustomerRow.id row = store_new_id env ∧
    CustomerRow.name row = name ∧
    CustomerRow.nic row = nic ∧
    CustomerRow.contact row = contact ∧
    CustomerRow.user_id row = user ∧
    CustomerRow.created_at row = store_created_at env ∧
    measurement_sets w' = measurement_sets w ∧
    session w' = session w ∧
    revalidated w' = (revalidated w ++ ["/dashboard"])%list.
Proof.
  intros Hn Hi Hc Hln Hli Hlc Ho Hp Hs Hok w'. subst w'.
  destruct (safeParse_customer_form_accepts (fromEntries formData) name nic contact)
    as [data Hparse]; try done.
  rewrite (createCustomer_run _ _ _ _ Hparse), Hs, Hok. simpl.
  eexists. split; [reflexivity|]. split; [reflexivity|].
  unfold customer_of_payload. simpl.
  rewrite lookup_insert_eq, !lookup_insert_ne by done.
  rewrite (customer_data_lookup _ data "name" name Hparse), 
          (customer_data_lookup _ data "nic" nic Hparse),
          (customer_data_lookup _ data "contact" contact Hparse);
    try done; try (vm_compute; set_solver).
Qed.

Lemma createCustomer_stores_the_form_witness :
  ∃ row,
    (createCustomer Sample.env Shop.customer_form Shop.world).1
      = Redirect "/dashboard/customer/set-2" ∧
    customers (createCustomer Sample.env Shop.customer_form Shop.world).2
      = [Sample.customer; Shop.second_customer; row] ∧
    CustomerRow.name row = "E F" ∧
    CustomerRow.user_id row = "user-1".
Proof.
  destruct (createCustomer_stores_the_form Sample.env Shop.customer_form Shop.world
              "E F" "24680" "0751112223" "user-1")
    as (row & Hres & Hrows & _ & Hname & _ & _ & Huser & _);
    try (vm_compute; reflexivity); try (vm_compute; lia);
    try (intros f; vm_compute; discriminate).
  exists row. split; [exact Hres|]. split; [exact Hrows|]. split; [exact Hname|exact Huser].
Defined.

(** X9.  With a form that passes validation and a store that accepts the
    update, [updateCustomer] gives the customer with id [customerId] the
    name, NIC and contact of the form and leaves its id, creation time and
    owner as they are; every other customer and every measurement set is
    unchanged; the dashboard and the customer's page are revalidated, in
    that order.  The session is not consulted. *)
Theorem updateCustomer_overwrites_the_row
    env customerId formData w name nic contact (i : nat) c :
  fromEntries formData !! "name" = Some (Text name) →
  fromEntries formData !! "nic" = Some (Text nic) →
  fromEntries formData !! "contact" = Some (Text contact) →
  (2 ≤ js_length name)%nat →
  (5 ≤ js_length nic)%nat →
  (5 ≤ js_length contact)%nat →
  (∀ f, fromEntries formData !! "orderHistory" ≠ Some (File f)) →
  (∀ f, fromEntries formData !! "preferences" ≠ Some (File f)) →
  store_error env = None →
  customers w !! i = Some c →
  let w' := (updateCustomer env customerId formData w).2 in
  (updateCustomer env customerId formData w).1 = Success ∧
  (∃ c',
     customers w' !! i = Some c' ∧
     CustomerRow.id c' = CustomerRow.id c ∧
     CustomerRow.created_at c' = CustomerRow.created_at c ∧
     CustomerRow.user_id c' = CustomerRow.user_id c ∧
     (CustomerRow.id c = customerId →
      CustomerRow.name c' = name ∧ CustomerRow.nic c' = nic ∧
      CustomerRow.contact c' = contact) ∧
     (CustomerRow.id c ≠ customerId → c' = c)) ∧
  length (customers w') = length (customers w) ∧
  measurement_sets w' = measurement_sets w ∧
  session w' = session w ∧
  revalidated w' =
    (revalidated w ++ ["/dashboard"; ("/dashboard/customer/" ++ customerId)%string])%list ∧
  ∃ payload, calls w' = (calls w ++ [CustomersUpdate payload customerId])%list.
Proof.
  intros Hn Hi Hc Hln Hli Hlc Ho Hp Hok Hrow w'. subst w'.
  destruct (safeParse_customer_form_accepts (fromEntries formData) name nic contact)
    as [data Hparse]; try done.
  rewrite (updateCustomer_run _ _ _ _ _ Hparse), Hok. simpl.
  split; [done|]. split.
  - rewrite list_lookup_fmap, Hrow. simpl. eexists. split; [done|].
    destruct (String.eqb_spec (CustomerRow.id c) customerId) as [Heq|Hne].
    + unfold patch_customer. simpl.
      rewrite (customer_data_lookup _ data "name" name Hparse),
              (customer_data_lookup _ data "nic" nic Hparse),
              (customer_data_lookup _ data "contact" contact Hparse);
        try done; try (vm_compute; set_solver).
    + by repeat split.
  - rewrite length_fmap, <- app_assoc. eauto 10.
Qed.

Lemma updateCustomer_overwrites_the_row_witness :
  ∃ c',
    customers (updateCustomer Sample.env "cust-2" Shop.customer_form Shop.signed_out).2 !! 1
      = Some c' ∧
    CustomerRow.id c' = "cust-2" ∧
    CustomerRow.user_id c' = "user-1" ∧
    CustomerRow.name c' = "E F".
Proof.
  destruct (updateCustomer_overwrites_the_row Sample.env "cust-2" Shop.customer_form
              Shop.signed_out "E F" "24680" "0751112223" 1 Shop.second_customer)
    as (_ & (c' & Hrow & Hid & _ & Huser & Hnew & _) & _);
    try (vm_compute; reflexivity); try (vm_compute; lia);
    try (intros f; vm_compute; discriminate).
  destruct (Hnew eq_refl) as (Hname & _).
  exists c'. split; [exact Hrow|]. split; [exact Hid|]. split; [exact Huser|exact Hname].
Defined.

Lemma getCustomers_run env w :
  getCustomers env w =
  match store_error env with
  | Some e =>
      ([],
       mkWorld (customers w) (measurement_sets w) (session w) (revalidated w)
               (console w ++ [e]) (calls w ++ [CustomersSelect]))
  | None =>
      ((λ c, Customer.mk c (joined_sets c (measurement_sets w))
                           (joined_sets c (measurement_sets w)))
         <$> merge_sort created_at_desc (customers w),
       mkWorld (customers w) (measurement_sets w) (session w) (revalidated w)
               (console w) (calls w ++ [CustomersSelect]))
  end.
Proof.
  unfold getCustomers, customers_select. run_action.
  destruct (store_error env); [reflexivity|].
  simpl. by rewrite <- list_fmap_compose.
Qed.

Lemma filter_id_after_delete (customerId : string) (rows : list CustomerRow.t) :
  filter (λ c, CustomerRow.id c = customerId)
         (filter (λ c, CustomerRow.id c ≠ customerId) rows) = [].
Proof.
  induction rows as [|c rows IH]; [done|].
  rewrite filter_cons. case_decide as Hne; [|done].
  rewrite filter_cons. by case_decide.
Qed.

(** X10.  When the store answers with an error, no action stores or
    revalidates anything: after [createCustomer], [updateCustomer],
    [deleteCustomer], [addMeasurementSet], [updateOrderStatus] and
    [updatePaymentStatus] both tables, the session and the invalidated paths
    are as before, and the result is an error result. *)
Theorem store_error_changes_nothing
    env e w formData customerId setId newStatus measurementSet :
  store_error env = Some e →
  (same_state w (createCustomer env formData w).2 ∧
   ∃ error fields, (createCustomer env formData w).1 = Failure error fields) ∧
  (same_state w (updateCustomer env customerId formData w).2 ∧
   ∃ error fields, (updateCustomer env customerId formData w).1 = Failure error fields) ∧
  (same_state w (deleteCustomer env customerId w).2 ∧
   (deleteCustomer env customerId w).1 = Failure "Failed to delete customer." None) ∧
  (same_state w (addMeasurementSet env customerId measurementSet w).2 ∧
   (addMeasurementSet env customerId measurementSet w).1
     = Failure "Failed to add measurement set." None) ∧
  (same_state w (updateOrderStatus env setId customerId newStatus w).2 ∧
   (updateOrderStatus env setId customerId newStatus w).1
     = Failure "Failed to update order status." None) ∧
  (same_state w (updatePaymentStatus env setId customerId newStatus w).2 ∧
   (updatePaymentStatus env setId customerId newStatus w).1
     = Failure "Failed to update payment status." None).
Proof.
  intros Herr. unfold same_state.
  rewrite deleteCustomer_run, addMeasurementSet_run, updateOrderStatus_run,
          updatePaymentStatus_run, Herr. simpl.
  split; [|split; [|by repeat split]].
  - destruct (safeParse_cases customerFormSchema (fromEntries formData))
      as [[data H]|[issues H]].
    + rewrite (createCustomer_run _ _ _ _ H), Herr.
      destruct (session w); simpl; eauto 10.
    + rewrite (createCustomer_invalid _ _ _ _ H). simpl. eauto 10.
  - destruct (safeParse_cases customerFormSchema (fromEntries formData))
      as [[data H]|[issues H]].
    + rewrite (updateCustomer_run _ _ _ _ _ H), Herr. simpl. eauto 10.
    + rewrite (updateCustomer_invalid _ _ _ _ _ H). simpl. eauto 10.
Qed.

Lemma store_error_changes_nothing_witness :
  customers (createCustomer Sample.failing_env Shop.customer_form Shop.world).2
    = customers Shop.world ∧
  measurement_sets (deleteCustomer Sample.failing_env "cust-1" Shop.world).2
    = measurement_sets Shop.world ∧
  (updateOrderStatus Sample.failing_env "set-1" "cust-1" "Completed" Shop.world).1
    = Failure "Failed to update order status." None.
Proof.
  destruct (store_error_changes_nothing Sample.failing_env "connection refused"
              Shop.world Shop.customer_form "cust-1" "set-1" "Completed" Sample.new_set
              eq_refl)
    as (((Hc & _) & _) & _ & ((_ & Hm & _) & _) & _ & (_ & Hres) & _).
  split; [exact Hc|]. split; [exact Hm|exact Hres].
Defined.

(** X11.  When the store accepts it, [deleteCustomer] removes exactly the
    customers with id [customerId], and with them their measurement sets;
    the other customers and sets stay, in their order.  It revalidates the
    dashboard and redirects there.  Afterwards [getCustomerById] for that id
    returns null and [getCustomers] does not list it. *)
Theorem deleteCustomer_removes_the_customer env customerId w :
  store_error env = None →
  let w' := (deleteCustomer env customerId w).2 in
  (deleteCustomer env customerId w).1 = Redirect "/dashboard" ∧
  customers w' = filter (λ c, CustomerRow.id c ≠ customerId) (customers w) ∧
  measurement_sets w' =
    filter (λ ms, MeasurementSetRow.customer_id ms ≠ customerId) (measurement_sets w) ∧
  (∀ c, c ∈ customers w' ↔ c ∈ customers w ∧ CustomerRow.id c ≠ customerId) ∧
  (∀ ms, ms ∈ measurement_sets w' ↔
         ms ∈ measurement_sets w ∧ MeasurementSetRow.customer_id ms ≠ customerId) ∧
  session w' = session w ∧
  revalidated w' = (revalidated w ++ ["/dashboard"])%list ∧
  (∀ env' not_single, (getCustomerById env' not_single customerId w').1 = None) ∧
  (∀ env' c, c ∈ (getCustomers env' w').1 →
             CustomerRow.id (Customer.row c) ≠ customerId).
Proof.
  intros Hok w'. subst w'. rewrite deleteCustomer_run, Hok. simpl.
  split; [done|]. split; [done|]. split; [done|].
  split; [intros c; rewrite list_elem_of_filter; tauto|].
  split; [intros ms; rewrite list_elem_of_filter; tauto|].
  split; [done|]. split; [done|]. split.
  - intros env' not_single. rewrite getCustomerById_run. simpl.
    rewrite filter_id_after_delete. by destruct (store_error env').
  - intros env' c. rewrite getCustomers_run. simpl.
    destruct (store_error env'); simpl; [by intros ?%elem_of_nil|].
    intros (row & -> & Hin)%list_elem_of_fmap. simpl.
    rewrite merge_sort_Permutation in Hin.
    by apply list_elem_of_filter in Hin as [Hne _].
Qed.

Lemma deleteCustomer_removes_the_customer_witness :
  customers (deleteCustomer Sample.env "cust-1" Shop.world).2 = [Shop.second_customer] ∧
  measurement_sets (deleteCustomer Sample.env "cust-1" Shop.world).2 = [Shop.second_set] ∧
  (getCustomerById Sample.env "no single row" "cust-1"
     (deleteCustomer Sample.env "cust-1" Shop.world).2).1 = None.
Proof.
  destruct (deleteCustomer_removes_the_customer Sample.env "cust-1" Shop.world eq_refl)
    as (_ & Hc & Hm & _ & _ & _ & _ & Hnull & _).
  split; [exact Hc|]. split; [exact Hm|]. apply Hnull.
Defined.

(** ** Measurement sets: frames and composition *)

(** X12.  [addMeasurementSet] only appends: the rows that were there keep
    their place and content and the customers are untouched.  When the store
    accepts the insert the one new row carries the id the store gave it and
    null completion and handover dates, whatever status and dates the
    caller's measurement set holds; when the store refuses, no row is added,
    nothing is revalidated and the error is logged to the console. *)
Theorem addMeasurementSet_only_appends env customerId measurementSet w :
  let w' := (addMeasurementSet env customerId measurementSet w).2 in
  (∀ (i : nat) r, measurement_sets w !! i = Some r → measurement_sets w' !! i = Some r) ∧
  customers w' = customers w ∧
  session w' = session w ∧
  match store_error env with
  | Some e =>
      (addMeasurementSet env customerId measurementSet w).1
        = Failure "Failed to add measurement set." None ∧
      measurement_sets w' = measurement_sets w ∧
      revalidated w' = revalidated w ∧
      console w' = (console w ++ [("Supabase error: " ++ e)%string])%list
  | None =>
      (addMeasurementSet env customerId measurementSet w).1 = Success ∧
      (∃ row,
         measurement_sets w' = (measurement_sets w ++ [row])%list ∧
         MeasurementSetRow.id row = store_new_id env ∧
         MeasurementSetRow.completion_date row = None ∧
         MeasurementSetRow.handover_date row = None) ∧
      revalidated w' =
        (revalidated w ++ [("/dashboard/customer/" ++ customerId)%string])%list ∧
      console w' = console w
  end.
Proof.
  intros w'. subst w'. rewrite addMeasurementSet_run. simpl.
  destruct (store_error env); simpl.
  - by repeat split.
  - split; [intros i r Hr; by apply lookup_app_l_Some|].
    split; [done|]. split; [done|]. split; [done|].
    split; [|done]. eexists. by repeat split.
Qed.

Lemma addMeasurementSet_only_appends_witness :
  let completed :=
    MeasurementSet.mk [("sleeve", "24")] None None "Paid" "Completed"
      (Some "2024-05-30T10:00:00.000Z") None in
  measurement_sets (addMeasurementSet Sample.env "cust-2" completed Shop.world).2 !! 1
    = Some Shop.second_set ∧
  ∃ row,
    measurement_sets (addMeasurementSet Sample.env "cust-2" completed Shop.world).2
      = [Sample.pending_set; Shop.second_set; Shop.third_set; row] ∧
    MeasurementSetRow.completion_date row = None.
Proof.
  intros completed.
  destruct (addMeasurementSet_only_appends Sample.env "cust-2" completed Shop.world)
    as (Hkeep & _ & _ & _ & (row & Hrows & _ & Hnull & _) & _).
  split; [apply Hkeep; reflexivity|].
  exists row. split; [exact Hrows|exact Hnull].
Defined.

Lemma apply_update_id u r :
  MeasurementSetRow.id (apply_update u r) = MeasurementSetRow.id r.
Proof. reflexivity. Qed.

Lemma update_eq_id_commute env newStatus paid setId1 setId2 rows :
  update_eq_id (UpdateData.mk (Some paid) None None None) setId2
    (update_eq_id (orderStatusUpdateData env newStatus) setId1 rows) =
  update_eq_id (orderStatusUpdateData env newStatus) setId1
    (update_eq_id (UpdateData.mk (Some paid) None None None) setId2 rows).
Proof.
  unfold update_eq_id. rewrite <- !list_fmap_compose.
  apply list_fmap_ext. intros _ r _. simpl.
  rewrite orderStatusUpdateData_cases.
  destruct (String.eqb (MeasurementSetRow.id r) setId1) eqn:H1;
    destruct (String.eqb (MeasurementSetRow.id r) setId2) eqn:H2;
    rewrite ?apply_update_id, ?H1, ?H2; reflexivity.
Qed.

(** X13.  An order-status update and a payment-status update commute:
    served in either order, on the same or on different sets, they leave the
    same measurement sets and customers and give the same two results. *)
Theorem order_and_payment_updates_commute
    env1 env2 setId1 customerId1 newStatus setId2 customerId2 paid w :
  let o := updateOrderStatus env1 setId1 customerId1 newStatus in
  let p := updatePaymentStatus env2 setId2 customerId2 paid in
  measurement_sets (p (o w).2).2 = measurement_sets (o (p w).2).2 ∧
  customers (p (o w).2).2 = customers (o (p w).2).2 ∧
  session (p (o w).2).2 = session (o (p w).2).2 ∧
  (o w).1 = (o (p w).2).1 ∧
  (p w).1 = (p (o w).2).1.
Proof.
  intros o p. subst o p.
  rewrite !updateOrderStatus_run, !updatePaymentStatus_run.
  destruct (store_error env1), (store_error env2); simpl; repeat split.
  apply update_eq_id_commute.
Qed.

(** What two applied order-status updates make of the targeted row. *)
Lemma updateOrderStatus_twice_row env1 env2 setId c1 c2 s1 s2 w (i : nat) r :
  measurement_sets w !! i = Some r →
  MeasurementSetRow.id r = setId →
  store_error env1 = None →
  store_error env2 = None →
  measurement_sets
    (updateOrderStatus env2 setId c2 s2 (updateOrderStatus env1 setId c1 s1 w).2).2 !! i
  = Some (apply_update (orderStatusUpdateData env2 s2)
            (apply_update (orderStatusUpdateData env1 s1) r)).
Proof.
  intros Hr Hid H1 H2.
  pose proof (updateOrderStatus_row env1 setId c1 s1 w i r Hr) as Hr1.
  rewrite H1 in Hr1. apply String.eqb_eq in Hid. rewrite Hid in Hr1.
  rewrite (updateOrderStatus_row env2 setId c2 s2 _ i _ Hr1).
  by rewrite H2, apply_update_id, Hid.
Qed.

(** X14.  Two applied order-status updates of the same set compose as
    follows: the stored status is the second one; each date is the time of
    the second update if the second status stamps it, else the time of the
    first update if the first status stamps it, else what it was.  So
    setting "Completed" again moves the completion date to the later time,
    and "Completed" followed by "Handed Over" leaves both dates set. *)
Theorem order_status_updates_compose
    env1 env2 setId customerId1 customerId2 status1 status2 w (i : nat) r :
  measurement_sets w !! i = Some r →
  MeasurementSetRow.id r = setId →
  store_error env1 = None →
  store_error env2 = None →
  ∃ r',
    measurement_sets
      (updateOrderStatus env2 setId customerId2 status2
         (updateOrderStatus env1 setId customerId1 status1 w).2).2 !! i = Some r' ∧
    MeasurementSetRow.order_status r' = status2 ∧
    MeasurementSetRow.completion_date r' =
      (if decide (status2 = "Completed") then Some (now env2)
       else if decide (status1 = "Completed") then Some (now env1)
       else MeasurementSetRow.completion_date r) ∧
    MeasurementSetRow.handover_date r' =
      (if decide (status2 = "Handed Over") then Some (now env2)
       else if decide (status1 = "Handed Over") then Some (now env1)
       else MeasurementSetRow.handover_date r) ∧
    MeasurementSetRow.payment_status r' = MeasurementSetRow.payment_status r.
Proof.
  intros Hr Hid H1 H2. eexists.
  split; [by apply updateOrderStatus_twice_row|].
  rewrite !orderStatusUpdateData_cases. simpl.
  repeat split; by repeat case_decide.
Qed.

Lemma order_status_updates_compose_witness :
  (∃ r',
     measurement_sets
       (updateOrderStatus Shop.later_env "set-1" "cust-1" "Completed"
          (updateOrderStatus Sample.env "set-1" "cust-1" "Completed" Shop.world).2).2 !! 0
       = Some r' ∧
     MeasurementSetRow.completion_date r' = Some "2024-06-02T11:00:00.000Z") ∧
  (∃ r',
     measurement_sets
       (updateOrderStatus Shop.later_env "set-1" "cust-1" "Handed Over"
          (updateOrderStatus Sample.env "set-1" "cust-1" "Completed" Shop.world).2).2 !! 0
       = Some r' ∧
     MeasurementSetRow.order_status r' = "Handed Over" ∧
     MeasurementSetRow.completion_date r' = Some "2024-05-01T09:30:00.000Z" ∧
     MeasurementSetRow.handover_date r' = Some "2024-06-02T11:00:00.000Z").
Proof.
  split.
  - destruct (order_status_updates_compose Sample.env Shop.later_env "set-1" "cust-1"
                "cust-1" "Completed" "Completed" Shop.world 0 Sample.pending_set
                eq_refl eq_refl eq_refl eq_refl) as (r' & Hr' & _ & Hc & _).
    exists r'. split; [exact Hr'|exact Hc].
  - destruct (order_status_updates_compose Sample.env Shop.later_env "set-1" "cust-1"
                "cust-1" "Completed" "Handed Over" Shop.world 0 Sample.pending_set
                eq_refl eq_refl eq_refl eq_refl) as (r' & Hr' & Hs & Hc & Hh & _).
    exists r'. split; [exact Hr'|]. split; [exact Hs|]. split; [exact Hc|exact Hh].
Defined.

Lemma update_eq_id_no_match u setId (rows : list MeasurementSetRow.t) :
  (∀ r, r ∈ rows → MeasurementSetRow.id r ≠ setId) →
  update_eq_id u setId rows = rows.
Proof.
  intros Hnone. unfold update_eq_id.
  rewrite <- (list_fmap_id rows) at 2.
  apply list_fmap_ext. intros i r Hr. simpl.
  destruct (String.eqb_spec (MeasurementSetRow.id r) setId) as [Heq|]; [|done].
  destruct (Hnone r); [by eapply list_elem_of_lookup_2|done].
Qed.

(** X15.  A status update for an id that no measurement set has is not an
    error: when the store reports none, [updateOrderStatus] and
    [updatePaymentStatus] answer with success and revalidate the customer's
    page although no row has changed. *)
Theorem update_of_unknown_set_succeeds env setId customerId newStatus w :
  (∀ r, r ∈ measurement_sets w → MeasurementSetRow.id r ≠ setId) →
  store_error env = None →
  (updateOrderStatus env setId customerId newStatus w).1 = Success ∧
  measurement_sets (updateOrderStatus env setId customerId newStatus w).2
    = measurement_sets w ∧
  revalidated (updateOrderStatus env setId customerId newStatus w).2
    = (revalidated w ++ [("/dashboard/customer/" ++ customerId)%string])%list ∧
  (updatePaymentStatus env setId customerId newStatus w).1 = Success ∧
  measurement_sets (updatePaymentStatus env setId customerId newStatus w).2
    = measurement_sets w ∧
  revalidated (updatePaymentStatus env setId customerId newStatus w).2
    = (revalidated w ++ [("/dashboard/customer/" ++ customerId)%string])%list.
Proof.
  intros Hnone Hok.
  rewrite updateOrderStatus_run, updatePaymentStatus_run, Hok. simpl.
  rewrite !update_eq_id_no_match by done. by repeat split.
Qed.

Lemma update_of_unknown_set_succeeds_witness :
  (updateOrderStatus Sample.env "set-9" "cust-1" "Completed" Shop.world).1 = Success ∧
  measurement_sets (updateOrderStatus Sample.env "set-9" "cust-1" "Completed" Shop.world).2
    = measurement_sets Shop.world.
Proof.
  destruct (update_of_unknown_set_succeeds Sample.env "set-9" "cust-1" "Completed"
              Shop.world) as (Hres & Hrows & _).
  - intros r Hr. simpl in Hr.
    repeat (apply elem_of_cons in Hr as [->|Hr]; [discriminate|]).
    by apply elem_of_nil in Hr.
  - reflexivity.
  - split; [exact Hres|exact Hrows].
Defined.

(** X16.  [updateOrderStatus] writes nothing but the order status and the
    two dates of the rows with id [setId]: in every row the id, customer,
    creation date, measurements, job number, request date and payment status
    are as before, a row with another id is unchanged, no row is added or
    removed, and the customers and the session are untouched. *)
Theorem updateOrderStatus_frame env setId customerId newStatus w (i : nat) r :
  measurement_sets w !! i = Some r →
  let w' := (updateOrderStatus env setId customerId newStatus w).2 in
  (∃ r',
     measurement_sets w' !! i = Some r' ∧
     r' = MeasurementSetRow.mk
            (MeasurementSetRow.id r) (MeasurementSetRow.customer_id r)
            (MeasurementSetRow.date r) (MeasurementSetRow.measurements r)
            (MeasurementSetRow.job_number r) (MeasurementSetRow.request_date r)
            (MeasurementSetRow.payment_status r)
            (MeasurementSetRow.order_status r')
            (MeasurementSetRow.completion_date r') (MeasurementSetRow.handover_date r') ∧
     (MeasurementSetRow.id r ≠ setId → r' = r)) ∧
  length (measurement_sets w') = length (measurement_sets w) ∧
  customers w' = customers w ∧
  session w' = session w.
Proof.
  intros Hr w'. subst w'. split.
  - eexists. split; [by apply updateOrderStatus_row|].
    rewrite orderStatusUpdateData_cases. destruct r. simpl.
    destruct (store_error env); simpl; [by split|].
    destruct (String.eqb_spec id setId) as [->|Hne]; simpl;
      (split; [reflexivity|intros ?; congruence]).
  - rewrite updateOrderStatus_run. simpl.
    destruct (store_error env); simpl; [done|].
    by rewrite update_eq_id_length.
Qed.

Lemma updateOrderStatus_frame_witness :
  measurement_sets (updateOrderStatus Sample.env "set-1" "cust-1" "Completed" Shop.world).2
    !! 1 = Some Shop.second_set ∧
  ∃ r',
    measurement_sets
      (updateOrderStatus Sample.env "set-1" "cust-1" "Completed" Shop.world).2 !! 0
      = Some r' ∧
    MeasurementSetRow.job_number r' = Some "J-17" ∧
    MeasurementSetRow.payment_status r' = "Unpaid".
Proof.
  destruct (updateOrderStatus_frame Sample.env "set-1" "cust-1" "Completed" Shop.world
              1 Shop.second_set eq_refl) as ((r1 & Hr1 & _ & Hsame) & _).
  destruct (updateOrderStatus_frame Sample.env "set-1" "cust-1" "Completed" Shop.world
              0 Sample.pending_set eq_refl) as ((r0 & Hr0 & Heq & _) & _).
  split.
  - rewrite Hr1. f_equal. apply Hsame. discriminate.
  - exists r0. split; [exact Hr0|]. rewrite Heq. split; reflexivity.
Defined.

(** ** Rows across sequences of requests *)

Lemma rows_kept_refl w : rows_kept w w.
Proof.
  split; intros i x Hx; exists x; (split; [done|]); by repeat split.
Qed.

Lemma rows_kept_trans w1 w2 w3 : rows_kept w1 w2 → rows_kept w2 w3 → rows_kept w1 w3.
Proof.
  intros [Hc12 Hs12] [Hc23 Hs23]. split.
  - intros i c Hc.
    destruct (Hc12 i c Hc) as (c2 & Hc2 & Hid2 & Hat2 & Hu2).
    destruct (Hc23 i c2 Hc2) as (c3 & Hc3 & Hid3 & Hat3 & Hu3).
    exists c3. split; [done|]. repeat split; congruence.
  - intros i r Hr.
    destruct (Hs12 i r Hr) as (r2 & Hr2 & H2).
    destruct (Hs23 i r2 Hr2) as (r3 & Hr3 & H3).
    exists r3. split; [done|].
    destruct H2 as (?&?&?&?&?&?&?&?), H3 as (?&?&?&?&?&?&?&?).
    repeat split; try congruence; auto.
Qed.

(** A request that leaves both tables alone keeps the rows. *)
Lemma rows_kept_same_tables w w' :
  customers w' = customers w → measurement_sets w' = measurement_sets w →
  rows_kept w w'.
Proof.
  intros Hc Hs. unfold rows_kept. rewrite Hc, Hs. apply rows_kept_refl.
Qed.

Lemma login_frame env formData w :
  customers (login env formData w).2 = customers w ∧
  measurement_sets (login env formData w).2 = measurement_sets w ∧
  revalidated (login env formData w).2 = revalidated w.
Proof.
  unfold login. destruct (safeParse loginSchema _) as [data|issues]; [|done].
  unfold signInWithPassword. run_action. by destruct (auth_error env).
Qed.

Lemma signup_frame env formData w :
  customers (signup env formData w).2 = customers w ∧
  measurement_sets (signup env formData w).2 = measurement_sets w ∧
  revalidated (signup env formData w).2 = revalidated w.
Proof.
  unfold signup. destruct (safeParse signupSchema _) as [data|issues]; [|done].
  unfold signUp, signInWithPassword. run_action.
  destruct (auth_error env); simpl; [done|]. by destruct (relogin_error env).
Qed.

Lemma apply_update_kept u r : set_kept r (apply_update u r).
Proof.
  unfold set_kept, apply_update. simpl. repeat split.
  - destruct (UpdateData.completion_date u); eauto.
  - destruct (UpdateData.handover_date u); eauto.
Qed.

Lemma set_kept_refl r : set_kept r r.
Proof. by repeat split. Qed.

Lemma update_eq_id_kept u setId w w' :
  customers w' = customers w →
  measurement_sets w' = update_eq_id u setId (measurement_sets w) →
  rows_kept w w'.
Proof.
  intros Hc Hs. split.
  - rewrite Hc. intros i c Hi. exists c. by repeat split.
  - rewrite Hs. intros i r Hr. rewrite update_eq_id_lookup, Hr. simpl.
    eexists. split; [done|].
    destruct (String.eqb _ setId); [apply apply_update_kept|apply set_kept_refl].
Qed.

(** One request other than a delete keeps every row. *)
Lemma serve_keeps_rows env r w : is_delete r = false → rows_kept w (serve env r w).
Proof.
  destruct r as [fd|fd|response|fd|customerId fd|customerId|customerId ms
                |setId customerId newStatus|setId customerId newStatus| |ns id];
    simpl; intros Hnd; try done.
  - destruct (login_frame env fd w) as (Hc & Hs & _). by apply rows_kept_same_tables.
  - destruct (signup_frame env fd w) as (Hc & Hs & _). by apply rows_kept_same_tables.
  - rewrite logout_run. by apply rows_kept_same_tables.
  - destruct (safeParse_cases customerFormSchema (fromEntries fd)) as [[data H]|[issues H]].
    + rewrite (createCustomer_run _ _ _ _ H).
      destruct (session w); [|by apply rows_kept_same_tables].
      destruct (store_error env); [by apply rows_kept_same_tables|].
      split; simpl.
      * intros i c Hi. exists c. split; [by apply lookup_app_l_Some|by repeat split].
      * intros i r Hi. exists r. split; [done|apply set_kept_refl].
    + rewrite (createCustomer_invalid _ _ _ _ H). apply rows_kept_refl.
  - destruct (safeParse_cases customerFormSchema (fromEntries fd)) as [[data H]|[issues H]].
    + rewrite (updateCustomer_run _ _ _ _ _ H).
      destruct (store_error env); [by apply rows_kept_same_tables|].
      split; simpl.
      * intros i c Hi. rewrite list_lookup_fmap, Hi. simpl. eexists. split; [done|].
        destruct (String.eqb _ customerId); by repeat split.
      * intros i r Hi. exists r. split; [done|apply set_kept_refl].
    + rewrite (updateCustomer_invalid _ _ _ _ _ H). apply rows_kept_refl.
  - rewrite addMeasurementSet_run. simpl.
    destruct (store_error env); [by apply rows_kept_same_tables|].
    split; simpl.
    + intros i c Hi. exists c. by repeat split.
    + intros i r Hi. exists r. split; [by apply lookup_app_l_Some|apply set_kept_refl].
  - rewrite updateOrderStatus_run. simpl.
    destruct (store_error env); [by apply rows_kept_same_tables|].
    by eapply update_eq_id_kept.
  - rewrite updatePaymentStatus_run. simpl.
    destruct (store_error env); [by apply rows_kept_same_tables|].
    by eapply update_eq_id_kept.
  - rewrite getCustomers_run.
    destruct (store_error env); by apply rows_kept_same_tables.
  - rewrite getCustomerById_run.
    destruct (store_error env); [by apply rows_kept_same_tables|].
    destruct (filter _ (customers w)) as [|c [|c' rest]];
      by apply rows_kept_same_tables.
Qed.

(** X17.  [deleteCustomer] is the only action that removes anything: along
    any sequence of requests without a delete, every customer stays at its
    place with its id, creation time and owner, and every measurement set
    stays at its place with its id, customer, creation date, measurements,
    job number and request date, and with each date it had still set. *)
Theorem rows_survive_all_requests_but_delete (rs : list (Env * Request)) w :
  Forall (λ er, is_delete er.2 = false) rs →
  rows_kept w (serve_all rs w).
Proof.
  revert w. induction rs as [|[env r] rs IH]; intros w Hall; simpl.
  - apply rows_kept_refl.
  - apply Forall_cons in Hall as [Hr Hall].
    eapply rows_kept_trans; [by apply serve_keeps_rows|by apply IH].
Qed.

Lemma rows_survive_all_requests_but_delete_witness :
  let requests :=
    [ (Sample.env, ReqUpdateOrderStatus "set-2" "cust-2" "Pending");
      (Shop.later_env, ReqAddMeasurementSet "cust-2" Sample.new_set);
      (Shop.later_env, ReqUpdateCustomer "cust-2" Shop.customer_form);
      (Sample.env, ReqLogout None);
      (Shop.later_env, ReqUpdatePaymentStatus "set-2" "cust-1" "Unpaid") ] in
  (∃ c', customers (serve_all requests Shop.world) !! 1 = Some c' ∧
         CustomerRow.id c' = "cust-2" ∧ CustomerRow.user_id c' = "user-1") ∧
  (∃ r', measurement_sets (serve_all requests Shop.world) !! 1 = Some r' ∧
         MeasurementSetRow.id r' = "set-2" ∧
         is_Some (MeasurementSetRow.completion_date r')).
Proof.
  intros requests.
  destruct (rows_survive_all_requests_but_delete requests Shop.world) as [Hc Hs].
  { repeat constructor. }
  destruct (Hc 1 Shop.second_customer eq_refl) as (c' & Hc' & Hid & _ & Hu).
  destruct (Hs 1 Shop.second_set eq_refl) as (r' & Hr' & Hrid & _ & _ & _ & _ & _ & Hd & _).
  split.
  - exists c'. split; [exact Hc'|]. split; [exact Hid|exact Hu].
  - exists r'. split; [exact Hr'|]. split; [exact Hrid|].
    apply Hd. exists "2024-04-25T16:00:00.000Z". reflexivity.
Defined.

(** ** Fetching *)

(** The order on strings is total and transitive. *)
Lemma string_leb_trans a b c :
  String.leb a b = true → String.leb b c = true → String.leb a c = true.
Proof.
  unfold String.leb. revert b c.
  induction a as [|x a IH]; intros [|y b] [|z c]; simpl; try done.
  unfold Ascii.compare.
  destruct (N.compare_spec (N_of_ascii x) (N_of_ascii y)) as [Hxy|Hxy|Hxy];
    destruct (N.compare_spec (N_of_ascii y) (N_of_ascii z)) as [Hyz|Hyz|Hyz];
    destruct (N.compare_spec (N_of_ascii x) (N_of_ascii z)) as [Hxz|Hxz|Hxz];
    try done; try lia.
  apply IH.
Qed.

Lemma created_at_desc_total : Total created_at_desc.
Proof.
  intros a b. unfold created_at_desc.
  destruct (String.leb_total (CustomerRow.created_at b) (CustomerRow.created_at a))
    as [H|H]; rewrite H; simpl; auto.
Qed.

Lemma created_at_desc_trans : Transitive created_at_desc.
Proof.
  intros a b c. unfold created_at_desc. rewrite !Is_true_true.
  intros Hab Hbc. by eapply string_leb_trans.
Qed.

Lemma StronglySorted_lookup {A} (R : relation A) (l : list A) (i j : nat) a b :
  StronglySorted R l → (i < j)%nat → l !! i = Some a → l !! j = Some b → R a b.
Proof.
  intros Hsorted. revert i j.
  induction Hsorted as [|x l Hs IH Hall]; intros i j Hlt Hi Hj; [done|].
  destruct j as [|j]; [lia|]. simpl in Hj.
  destruct i as [|i]; simpl in Hi.
  - injection Hi as <-.
    eapply Forall_forall; [exact Hall|]. by eapply list_elem_of_lookup_2.
  - apply (IH i j); [lia|done|done].
Qed.

(** X18.  When the select succeeds, [getCustomers] lists every customer
    exactly once, newest first: an entry never comes before one with a
    later creation time.  Each entry carries under [measurementSets] the same
    list as under [measurement_sets], the job number and order status of
    that customer's sets in table order.  Nothing is stored, signed in or
    revalidated. *)
Theorem getCustomers_lists_customers_newest_first env w :
  store_error env = None →
  let result := (getCustomers env w).1 in
  Customer.row <$> result ≡ₚ customers w ∧
  (∀ (i j : nat) a b,
     (i < j)%nat → result !! i = Some a → result !! j = Some b →
     String.leb (CustomerRow.created_at (Customer.row b))
                (CustomerRow.created_at (Customer.row a)) = true) ∧
  (∀ c, c ∈ result →
     Customer.measurementSets c = Customer.measurement_sets c ∧
     Customer.measurementSets c =
       (λ ms, (MeasurementSetRow.job_number ms, MeasurementSetRow.order_status ms)) <$>
       filter (λ ms, MeasurementSetRow.customer_id ms = CustomerRow.id (Customer.row c))
              (measurement_sets w)) ∧
  same_state w (getCustomers env w).2.
Proof.
  intros Hok result. subst result. rewrite getCustomers_run, Hok. simpl.
  split; [|split; [|split]].
  - rewrite <- list_fmap_compose.
    rewrite <- (merge_sort_Permutation created_at_desc (customers w)) at 2.
    rewrite <- (list_fmap_id (merge_sort created_at_desc (customers w))) at 2.
    by rewrite (list_fmap_ext _ id (merge_sort created_at_desc (customers w))).
  - intros i j a b Hlt Hi Hj.
    rewrite list_lookup_fmap in Hi, Hj.
    destruct (merge_sort created_at_desc (customers w) !! i) as [ra|] eqn:Hra; [|done].
    destruct (merge_sort created_at_desc (customers w) !! j) as [rb|] eqn:Hrb; [|done].
    injection Hi as <-. injection Hj as <-. simpl.
    apply Is_true_true.
    apply (StronglySorted_lookup created_at_desc
             (merge_sort created_at_desc (customers w)) i j ra rb); try done.
    apply (StronglySorted_merge_sort created_at_desc
             (Transitive0 := created_at_desc_trans) (Total0 := created_at_desc_total)).
  - intros c (row & -> & _)%list_elem_of_fmap. simpl. by split.
  - by repeat split.
Qed.

Lemma getCustomers_lists_customers_newest_first_witness :
  (CustomerRow.id ∘ Customer.row <$> (getCustomers Sample.env Shop.world).1)
    = ["cust-2"; "cust-1"] ∧
  ∀ a b,
    (getCustomers Sample.env Shop.world).1 !! 0 = Some a →
    (getCustomers Sample.env Shop.world).1 !! 1 = Some b →
    String.leb (CustomerRow.created_at (Customer.row b))
               (CustomerRow.created_at (Customer.row a)) = true.
Proof.
  destruct (getCustomers_lists_customers_newest_first Sample.env Shop.world eq_refl)
    as (_ & Hsorted & _).
  split; [vm_compute; reflexivity|].
  intros a b Ha Hb. apply (Hsorted 0 1 a b); [lia|exact Ha|exact Hb].
Defined.

(** X19.  [getCustomerById] returns null exactly when the store answers with
    an error or the id does not select exactly one customer.  A customer it
    returns has the requested id and the columns of that row, with a null
    order history or preferences read as the empty string, and the
    measurement sets of that customer in table order.  Nothing is stored,
    signed in or revalidated. *)
Theorem getCustomerById_result env not_single id w :
  let result := (getCustomerById env not_single id w).1 in
  (result = None ↔
   store_error env ≠ None ∨
   length (filter (λ c, CustomerRow.id c = id) (customers w)) ≠ 1%nat) ∧
  (∀ customer, result = Some customer →
     CustomerDetail.id customer = id ∧
     ∃ c, c ∈ customers w ∧
          CustomerRow.id c = id ∧
          CustomerDetail.createdAt customer = CustomerRow.created_at c ∧
          CustomerDetail.name customer = CustomerRow.name c ∧
          CustomerDetail.nic customer = CustomerRow.nic c ∧
          CustomerDetail.contact customer = CustomerRow.contact c ∧
          CustomerDetail.orderHistory customer = or_empty (CustomerRow.order_history c) ∧
          CustomerDetail.preferences customer = or_empty (CustomerRow.preferences c) ∧
          CustomerDetail.measurementSets customer =
            set_of_row <$>
            filter (λ ms, MeasurementSetRow.customer_id ms = id) (measurement_sets w)) ∧
  same_state w (getCustomerById env not_single id w).2.
Proof.
  intros result. subst result. rewrite getCustomerById_run.
  destruct (store_error env) as [e|]; simpl.
  - split; [split; [by left|done]|]. split; [done|by repeat split].
  - destruct (filter (λ c, CustomerRow.id c = id) (customers w))
      as [|c [|c' rest]] eqn:Hfilter; simpl.
    + split; [split; [by right|done]|]. split; [done|by repeat split].
    + assert (c ∈ customers w ∧ CustomerRow.id c = id) as [Hin Hid].
      { assert (c ∈ filter (λ c, CustomerRow.id c = id) (customers w)) as Hc
          by (rewrite Hfilter; apply list_elem_of_here).
        apply list_elem_of_filter in Hc. tauto. }
      split; [split; [done|by intros [?|?]]|].
      split; [|by repeat split].
      intros customer [= <-]. simpl. split; [done|].
      exists c. rewrite Hid. by repeat split.
    + split; [split; [by right|done]|]. split; [done|by repeat split].
Qed.

Lemma getCustomerById_result_witness :
  (getCustomerById Sample.env "no single row" "cust-7" Shop.world).1 = None ∧
  ∃ customer,
    (getCustomerById Sample.env "no single row" "cust-2" Shop.world).1 = Some customer ∧
    CustomerDetail.id customer = "cust-2" ∧
    CustomerDetail.preferences customer = "" ∧
    (FullMeasurementSet.jobNumber <$> CustomerDetail.measurementSets customer) = [None].
Proof.
  destruct (getCustomerById_result Sample.env "no single row" "cust-7" Shop.world)
    as ((_ & Hnull) & _).
  destruct (getCustomerById_result Sample.env "no single row" "cust-2" Shop.world)
    as (_ & Hfound & _).
  split.
  - apply Hnull. right. vm_compute. discriminate.
  - eexists. split; [reflexivity|].
    destruct (Hfound _ eq_refl) as (Hid & _).
    split; [exact Hid|]. split; reflexivity.
Defined.

(** X20.  What [addMeasurementSet] stores is what [getCustomerById] reads
    back: after a successful add for a customer that the id selects, the
    customer's measurement sets are the ones fetched before followed by the
    new one, with the creation date of the add, the caller's measurements,
    payment status and order status, the caller's job number and request
    date (an empty string read as undefined), and no completion or handover
    date. *)
Theorem added_set_is_fetched
    env env' not_single customerId measurementSet w c :
  store_error env = None →
  store_error env' = None →
  filter (λ c, CustomerRow.id c = customerId) (customers w) = [c] →
  ∃ before after,
    (getCustomerById env' not_single customerId w).1 = Some before ∧
    (getCustomerById env' not_single customerId
       (addMeasurementSet env customerId measurementSet w).2).1 = Some after ∧
    CustomerDetail.measurementSets after =
      (CustomerDetail.measurementSets before ++
       [FullMeasurementSet.mk (store_new_id env) (now env)
          (MeasurementSet.measurements measurementSet)
          (or_undefined (MeasurementSet.jobNumber measurementSet))
          (or_undefined (MeasurementSet.requestDate measurementSet))
          (MeasurementSet.paymentStatus measurementSet)
          (MeasurementSet.orderStatus measurementSet)
          None None])%list.
Proof.
  intros Hok Hok' Hfilter.
  assert (CustomerRow.id c = customerId) as Hid.
  { assert (c ∈ filter (λ c, CustomerRow.id c = customerId) (customers w)) as Hc
      by (rewrite Hfilter; apply list_elem_of_here).
    apply list_elem_of_filter in Hc. tauto. }
  rewrite addMeasurementSet_run, Hok. simpl.
  rewrite !getCustomerById_run, Hok'. simpl. rewrite Hfilter, Hid.
  eexists _, _. split; [reflexivity|]. split; [reflexivity|]. simpl.
  rewrite filter_app, fmap_app, filter_cons. simpl.
  by rewrite decide_True.
Qed.

Lemma added_set_is_fetched_witness :
  let blank :=
    MeasurementSet.mk [("hip", "38")] (Some "") None "Unpaid" "Completed"
      (Some "2024-05-30T10:00:00.000Z") None in
  ∃ after,
    (getCustomerById Shop.later_env "no single row" "cust-2"
       (addMeasurementSet Shop.adding_env "cust-2" blank Shop.world).2).1 = Some after ∧
    (FullMeasurementSet.id <$> CustomerDetail.measurementSets after) = ["set-2"; "set-4"] ∧
    (FullMeasurementSet.jobNumber <$> CustomerDetail.measurementSets after) = [None; None] ∧
    (FullMeasurementSet.completionDate <$> CustomerDetail.measurementSets after)
      = [Some "2024-04-25T16:00:00.000Z"; None].
Proof.
  intros blank.
  destruct (added_set_is_fetched Shop.adding_env Shop.later_env "no single row" "cust-2"
              blank Shop.world Shop.second_customer eq_refl eq_refl eq_refl)
    as (before & after & Hb & Ha & Hsets).
  exists after. split; [exact Ha|].
  injection Hb as <-. rewrite Hsets. repeat split.
Defined.

(** X21.  What the two status updates store is what [getCustomerById] reads
    back: after an applied [updateOrderStatus] the set is listed under its
    customer with the new status and the dates that status stamps, and after an
    applied [updatePaymentStatus] with the new payment status, whatever
    [customerId] the update was called with. *)
Theorem updated_status_is_fetched
    env env' not_single setId customerId newStatus w c (i : nat) r :
  store_error env = None →
  store_error env' = None →
  filter (λ c, CustomerRow.id c = MeasurementSetRow.customer_id r) (customers w) = [c] →
  measurement_sets w !! i = Some r →
  MeasurementSetRow.id r = setId →
  (∃ customer set,
     (getCustomerById env' not_single (MeasurementSetRow.customer_id r)
        (updateOrderStatus env setId customerId newStatus w).2).1 = Some customer ∧
     set ∈ CustomerDetail.measurementSets customer ∧
     FullMeasurementSet.id set = setId ∧
     FullMeasurementSet.orderStatus set = newStatus ∧
     FullMeasurementSet.paymentStatus set = MeasurementSetRow.payment_status r ∧
     FullMeasurementSet.completionDate set =
       or_undefined (if decide (newStatus = "Completed") then Some (now env)
                     else MeasurementSetRow.completion_date r) ∧
     FullMeasurementSet.handoverDate set =
       or_undefined (if decide (newStatus = "Handed Over") then Some (now env)
                     else MeasurementSetRow.handover_date r)) ∧
  (∃ customer set,
     (getCustomerById env' not_single (MeasurementSetRow.customer_id r)
        (updatePaymentStatus env setId customerId newStatus w).2).1 = Some customer ∧
     set ∈ CustomerDetail.measurementSets customer ∧
     FullMeasurementSet.id set = setId ∧
     FullMeasurementSet.paymentStatus set = newStatus ∧
     FullMeasurementSet.orderStatus set = MeasurementSetRow.order_status r ∧
     FullMeasurementSet.completionDate set
       = or_undefined (MeasurementSetRow.completion_date r) ∧
     FullMeasurementSet.handoverDate set
       = or_undefined (MeasurementSetRow.handover_date r)).
Proof.
  intros Hok Hok' Hfilter Hr Hid.
  assert (CustomerRow.id c = MeasurementSetRow.customer_id r) as Hc.
  { assert (c ∈ filter (λ c, CustomerRow.id c = MeasurementSetRow.customer_id r)
                       (customers w)) as Hin
      by (rewrite Hfilter; apply list_elem_of_here).
    apply list_elem_of_filter in Hin. tauto. }
  pose proof (updateOrderStatus_row env setId customerId newStatus w i r Hr) as Ho.
  pose proof (updatePaymentStatus_row env setId customerId newStatus w i r Hr) as Hp.
  rewrite Hok in Ho, Hp. apply String.eqb_eq in Hid as Heqb. rewrite Heqb in Ho, Hp.
  rewrite orderStatusUpdateData_cases in Ho.
  split.
  - rewrite getCustomerById_run, Hok'.
    rewrite updateOrderStatus_run, Hok in Ho |- *. simpl in Ho |- *.
    rewrite Hfilter. simpl.
    eexists _, (set_of_row _). split; [reflexivity|]. simpl. split.
    + apply list_elem_of_fmap_2, list_elem_of_filter.
      split; [|by eapply list_elem_of_lookup_2]. by rewrite Hc.
    + simpl. repeat split; try done; by repeat case_decide.
  - rewrite getCustomerById_run, Hok'.
    rewrite updatePaymentStatus_run, Hok in Hp |- *. simpl in Hp |- *.
    rewrite Hfilter. simpl.
    eexists _, (set_of_row _). split; [reflexivity|]. simpl. split.
    + apply list_elem_of_fmap_2, list_elem_of_filter.
      split; [|by eapply list_elem_of_lookup_2]. by rewrite Hc.
    + simpl. by repeat split.
Qed.

Lemma updated_status_is_fetched_witness :
  ∃ customer set,
    (getCustomerById Shop.later_env "no single row" "cust-1"
       (updateOrderStatus Sample.env "set-3" "cust-2" "Handed Over" Shop.world).2).1
      = Some customer ∧
    set ∈ CustomerDetail.measurementSets customer ∧
    FullMeasurementSet.id set = "set-3" ∧
    FullMeasurementSet.orderStatus set = "Handed Over" ∧
    FullMeasurementSet.handoverDate set = Some "2024-05-01T09:30:00.000Z".
Proof.
  destruct (updated_status_is_fetched Sample.env Shop.later_env "no single row" "set-3"
              "cust-2" "Handed Over" Shop.world Sample.customer 2 Shop.third_set
              eq_refl eq_refl eq_refl eq_refl eq_refl)
    as ((customer & set & Hget & Hin & Hid & Hs & _ & _ & Hh) & _).
  exists customer, set.
  split; [exact Hget|]. split; [exact Hin|]. split; [exact Hid|].
  split; [exact Hs|exact Hh].
Defined.

(** ** Customers read back *)

Lemma filter_id_none (id : string) (rows : list CustomerRow.t) :
  (∀ c, c ∈ rows → CustomerRow.id c ≠ id) →
  filter (λ c, CustomerRow.id c = id) rows = [].
Proof.
  induction rows as [|c rows IH]; intros Hnone; [done|].
  rewrite filter_cons_False.
  - apply IH. intros c' Hc'. apply Hnone. by apply list_elem_of_further.
  - apply Hnone. apply list_elem_of_here.
Qed.

Lemma filter_id_patched (id customerId : string) payload (rows : list CustomerRow.t) :
  filter (λ c, CustomerRow.id c = id)
    ((λ r, if String.eqb (CustomerRow.id r) customerId
           then patch_customer payload r else r) <$> rows) =
  (λ r, if String.eqb (CustomerRow.id r) customerId
        then patch_customer payload r else r) <$>
  filter (λ c, CustomerRow.id c = id) rows.
Proof.
  induction rows as [|c rows IH]; [done|].
  rewrite fmap_cons, !filter_cons, IH. cbn beta.
  destruct (String.eqb (CustomerRow.id c) customerId) eqn:Heq; simpl;
    destruct (decide (CustomerRow.id c = id)); simpl; by rewrite ?Heq.
Qed.

(** X22.  The page [createCustomer] redirects to exists: when the store
    gives the new customer an id that no other customer has,
    [getCustomerById] for that id returns the customer just created, with
    the name, NIC and contact of the form, and the redirect is to that
    customer's detail page. *)
Theorem created_customer_is_fetched
    env env' not_single formData w name nic contact user :
  fromEntries formData !! "name" = Some (Text name) →
  fromEntries formData !! "nic" = Some (Text nic) →
  fromEntries formData !! "contact" = Some (Text contact) →
  (2 ≤ js_length name)%nat →
  (5 ≤ js_length nic)%nat →
  (5 ≤ js_length contact)%nat →
  (∀ f, fromEntries formData !! "orderHistory" ≠ Some (File f)) →
  (∀ f, fromEntries formData !! "preferences" ≠ Some (File f)) →
  session w = Some user →
  store_error env = None →
  store_error env' = None →
  (∀ c, c ∈ customers w → CustomerRow.id c ≠ store_new_id env) →
  ∃ customer,
    (getCustomerById env' not_single (store_new_id env)
       (createCustomer env formData w).2).1 = Some customer ∧
    (createCustomer env formData w).1
      = Redirect ("/dashboard/customer/" ++ CustomerDetail.id customer) ∧
    CustomerDetail.name customer = name ∧
    CustomerDetail.nic customer = nic ∧
    CustomerDetail.contact customer = contact ∧
    CustomerDetail.createdAt customer = store_created_at env.
Proof.
  intros Hn Hi Hc Hln Hli Hlc Ho Hp Hs Hok Hok' Hfresh.
  destruct (safeParse_customer_form_accepts (fromEntries formData) name nic contact)
    as [data Hparse]; try done.
  rewrite (createCustomer_run _ _ _ _ Hparse), Hs, Hok. simpl.
  rewrite getCustomerById_run, Hok'. simpl.
  rewrite filter_app, (filter_id_none _ _ Hfresh), filter_cons_True by done.
  simpl. eexists. split; [reflexivity|]. simpl.
  rewrite !lookup_insert_ne by done.
  rewrite (customer_data_lookup _ data "name" name Hparse),
          (customer_data_lookup _ data "nic" nic Hparse),
          (customer_data_lookup _ data "contact" contact Hparse);
    try done; try (vm_compute; set_solver).
Qed.

Lemma created_customer_is_fetched_witness :
  ∃ customer,
    (getCustomerById Sample.env "no single row" "cust-3"
       (createCustomer Shop.later_env Shop.customer_form Shop.world).2).1
      = Some customer ∧
    (createCustomer Shop.later_env Shop.customer_form Shop.world).1
      = Redirect "/dashboard/customer/cust-3" ∧
    CustomerDetail.name customer = "E F".
Proof.
  destruct (created_customer_is_fetched Shop.later_env Sample.env "no single row"
              Shop.customer_form Shop.world "E F" "24680" "0751112223" "user-1")
    as (customer & Hget & Hres & Hname & _);
    try (vm_compute; reflexivity); try (vm_compute; lia);
    try (intros f; vm_compute; discriminate).
  - intros c Hc. simpl in Hc.
    repeat (apply elem_of_cons in Hc as [->|Hc]; [discriminate|]).
    by apply elem_of_nil in Hc.
  - exists customer. split; [exact Hget|]. split; [|exact Hname].
    rewrite Hres. f_equal. f_equal. injection Hget as <-. reflexivity.
Defined.

(** X23.  What [updateCustomer] stores is what [getCustomerById] reads back:
    after an applied update of a customer that the id selects, the customer
    fetched under that id has the name, NIC and contact of the form, and the
    id, creation time and measurement sets it had. *)
Theorem updated_customer_is_fetched
    env env' not_single customerId formData w name nic contact c :
  fromEntries formData !! "name" = Some (Text name) →
  fromEntries formData !! "nic" = Some (Text nic) →
  fromEntries formData !! "contact" = Some (Text contact) →
  (2 ≤ js_length name)%nat →
  (5 ≤ js_length nic)%nat →
  (5 ≤ js_length contact)%nat →
  (∀ f, fromEntries formData !! "orderHistory" ≠ Some (File f)) →
  (∀ f, fromEntries formData !! "preferences" ≠ Some (File f)) →
  store_error env = None →
  store_error env' = None →
  filter (λ c, CustomerRow.id c = customerId) (customers w) = [c] →
  ∃ before after,
    (getCustomerById env' not_single customerId w).1 = Some before ∧
    (getCustomerById env' not_single customerId
       (updateCustomer env customerId formData w).2).1 = Some after ∧
    CustomerDetail.id after = CustomerDetail.id before ∧
    CustomerDetail.createdAt after = CustomerDetail.createdAt before ∧
    CustomerDetail.measurementSets after = CustomerDetail.measurementSets before ∧
    CustomerDetail.name after = name ∧
    CustomerDetail.nic after = nic ∧
    CustomerDetail.contact after = contact.
Proof.
  intros Hn Hi Hc Hln Hli Hlc Ho Hp Hok Hok' Hfilter.
  assert (CustomerRow.id c = customerId) as Hid.
  { assert (c ∈ filter (λ c, CustomerRow.id c = customerId) (customers w)) as Hin
      by (rewrite Hfilter; apply list_elem_of_here).
    apply list_elem_of_filter in Hin. tauto. }
  destruct (safeParse_customer_form_accepts (fromEntries formData) name nic contact)
    as [data Hparse]; try done.
  rewrite (updateCustomer_run _ _ _ _ _ Hparse), Hok. simpl.
  rewrite !getCustomerById_run, Hok'. simpl.
  rewrite filter_id_patched, Hfilter. simpl.
  apply String.eqb_eq in Hid as Heqb. rewrite Heqb.
  eexists _, _. split; [reflexivity|]. split; [reflexivity|]. simpl.
  rewrite (customer_data_lookup _ data "name" name Hparse),
          (customer_data_lookup _ data "nic" nic Hparse),
          (customer_data_lookup _ data "contact" contact Hparse);
    try done; try (vm_compute; set_solver).
Qed.

Lemma updated_customer_is_fetched_witness :
  ∃ after,
    (getCustomerById Sample.env "no single row" "cust-2"
       (updateCustomer Shop.later_env "cust-2" Shop.customer_form Shop.world).2).1
      = Some after ∧
    CustomerDetail.id after = "cust-2" ∧
    CustomerDetail.name after = "E F" ∧
    CustomerDetail.contact after = "0751112223".
Proof.
  destruct (updated_customer_is_fetched Shop.later_env Sample.env "no single row"
              "cust-2" Shop.customer_form Shop.world "E F" "24680" "0751112223"
              Shop.second_customer)
    as (before & after & Hb & Ha & Hid & _ & _ & Hname & _ & Hcontact);
    try (vm_compute; reflexivity); try (vm_compute; lia);
    try (intros f; vm_compute; discriminate).
  exists after. split; [exact Ha|]. split; [|split; [exact Hname|exact Hcontact]].
  rewrite Hid. injection Hb as <-. reflexivity.
Defined.

(** ** Repeated form fields *)

Lemma fromEntries_snoc formData key value :
  fromEntries (formData ++ [(key, value)]) = <[key := value]> (fromEntries formData).
Proof. unfold fromEntries. by rewrite foldl_app. Qed.

Lemma parse_object_issue_elem shape input key t msgs message :
  (key, t) ∈ shape → parse t (input !! key) = inl msgs → message ∈ msgs →
  (key, message) ∈ (parse_object shape input).1.
Proof.
  intros Hin Hparse Hm.
  induction shape as [|[k t'] shape IH]; [by apply elem_of_nil in Hin|].
  cbn [parse_object].
  destruct (parse_object shape input) as [issues data]. simpl in IH.
  apply elem_of_cons in Hin as [[= <- <-]|Hin].
  - rewrite Hparse. simpl. apply elem_of_app. left.
    by apply (list_elem_of_fmap_2 (λ m, (key, m))).
  - specialize (IH Hin).
    destruct (parse t' (input !! k)) as [msgs'|[v|]]; simpl; try done.
    apply elem_of_app. by right.
Qed.

Lemma safeParse_issues shape input issues :
  safeParse shape input = ParseError issues → issues = (parse_object shape input).1.
Proof.
  unfold safeParse. destruct (parse_object shape input) as [[|i rest] data]; [done|].
  by intros [= <-].
Qed.

(** X24.  A form field that occurs more than once is read from its last
    entry: whatever comes before, a last password entry shorter than six
    UTF-16 code units makes [login] and [signup] answer "Invalid fields",
    and a last name entry shorter than two code units makes
    [createCustomer] and [updateCustomer] answer "Invalid fields", each
    without touching anything. *)
Theorem last_entry_of_a_field_decides env customerId formData w p name :
  ((js_length p < 6)%nat →
   login env (formData ++ [("password", Text p)]) w = (Failure "Invalid fields" None, w) ∧
   signup env (formData ++ [("password", Text p)]) w = (Failure "Invalid fields" None, w)) ∧
  ((js_length name < 2)%nat →
   ∃ fields,
     createCustomer env (formData ++ [("name", Text name)]) w
       = (Failure "Invalid fields" (Some fields), w) ∧
     updateCustomer env customerId (formData ++ [("name", Text name)]) w
       = (Failure "Invalid fields" (Some fields), w) ∧
     is_Some (fields !! "name")).
Proof.
  split.
  - intros Hlen.
    destruct (safeParse_issue loginSchema (fromEntries (formData ++ [("password", Text p)]))
                "password" (ZodString [Min 6 None])
                [default ("String must contain at least " ++ pretty 6 ++ " character(s)")
                         None])
      as (issues & Hparse & _).
    + set_solver.
    + rewrite fromEntries_snoc, lookup_insert_eq. by apply parse_min_short.
    + split; [by eapply login_invalid|by eapply signup_invalid].
  - intros Hlen.
    assert (parse (ZodString [Min 2 (Some "Name must be at least 2 characters.")])
              (fromEntries (formData ++ [("name", Text name)]) !! "name")
            = inl ["Name must be at least 2 characters."]) as Hname.
    { rewrite fromEntries_snoc, lookup_insert_eq. by apply parse_min_short. }
    destruct (safeParse_cases customerFormSchema
                (fromEntries (formData ++ [("name", Text name)])))
      as [[data H]|[issues H]].
    + exfalso.
      destruct (safeParse_issue customerFormSchema
                  (fromEntries (formData ++ [("name", Text name)])) "name"
                  (ZodString [Min 2 (Some "Name must be at least 2 characters.")])
                  ["Name must be at least 2 characters."])
        as (issues & Herr & _); [set_solver|exact Hname|congruence].
    + exists (fieldErrors issues).
      split; [by apply createCustomer_invalid|].
      split; [by apply updateCustomer_invalid|].
      destruct (fieldErrors_complete issues "name" "Name must be at least 2 characters.")
        as (messages & Hm & _); [|by eexists].
      rewrite (safeParse_issues _ _ _ H).
      eapply parse_object_issue_elem; [|exact Hname|apply list_elem_of_here].
      set_solver.
Qed.

Lemma last_entry_of_a_field_decides_witness :
  login Sample.env (Sample.good_login_form ++ [("password", Text "парол")]) Shop.signed_out
    = (Failure "Invalid fields" None, Shop.signed_out) ∧
  ∃ fields,
    createCustomer Sample.env (Shop.customer_form ++ [("name", Text "අ")]) Shop.world
      = (Failure "Invalid fields" (Some fields), Shop.world) ∧
    is_Some (fields !! "name").
Proof.
  destruct (last_entry_of_a_field_decides Sample.env "cust-1" Sample.good_login_form
              Shop.signed_out "парол" "අ") as [Hlogin _].
  destruct (last_entry_of_a_field_decides Sample.env "cust-1" Shop.customer_form
              Shop.world "парол" "අ") as [_ Hcreate].
  split.
  - apply Hlogin. vm_compute; lia.
  - destruct Hcreate as (fields & Hc & _ & Hf); [vm_compute; lia|].
    exists fields. split; [exact Hc|exact Hf].
Defined.
